(** * prmanager: the connection listener, its idle-server sweep and the router

    A shallow embedding of [listener.go], of the methods of [docker.go]
    ([BuildImage], [ServerPort], [StartServer], [DeleteServer],
    [StopServer], [ClearContainers]) and of the two routes of [router.go].

    The Go code talks to four collaborators: the Minecraft connection
    (gophertunnel), the file system ([os.Stat]), the Docker daemon (API
    client and [exec.Command]) and the clock.  Each such call is an
    operation of a small free monad; a program is the tree of the calls it
    makes, and it is run against an arbitrary model of the collaborators.
    The field [lastConnections] of the [Listener] is a [gmap] that the
    interpreter threads through the run.  The router adds the calls on the
    HTTP request and its response and those that write to the disk; its
    handlers are programs over the listener's calls and these.  Logging
    ([slog]) has no effect on control flow and is left out. *)

From Stdlib Require Import Ascii.
From stdpp Require Import base gmap strings list fin_maps sorting.

Open Scope Z_scope.

(** ** Strings and the address pattern *)

Module Address.

(** [strings.Split(s, ":")[0]]: the bytes of [s] before its first colon,
    all of [s] when it has none. *)
Fixpoint before_colon (s : string) : string :=
  match s with
  | EmptyString => EmptyString
  | String c rest =>
      if Ascii.eqb c ":"%char then EmptyString else String c (before_colon rest)
  end.

(** The class [\d] of Go's [regexp] (RE2 syntax): the ASCII digits only. *)
Definition is_digit (c : Ascii.ascii) : bool :=
  let n := Ascii.N_of_ascii c in ((48 <=? n) && (n <=? 57))%N.

Fixpoint all_digits (s : string) : bool :=
  match s with
  | EmptyString => true
  | String c rest => is_digit c && all_digits rest
  end.

(** The longest prefix of digits of [s], and what follows it. *)
Fixpoint span_digits (s : string) : string * string :=
  match s with
  | EmptyString => (EmptyString, EmptyString)
  | String c rest =>
      if is_digit c
      then let '(ds, tl) := span_digits rest in (String c ds, tl)
      else (EmptyString, s)
  end.

(** The literal tail of the pattern, [\.df-mc\.dev]. *)
Definition pr_domain : string := ".df-mc.dev".

(** [regexp.MustCompile(`^(\d+)\.df-mc\.dev$`).FindStringSubmatch(addr)]:
    the whole match followed by the text of the one capture group, or the
    empty slice when [addr] does not match.  Both ends are anchored and the
    byte after the digits must be a dot, so the group can only be the
    longest digit prefix. *)
Definition FindStringSubmatch (addr : string) : list string :=
  let '(ds, tl) := span_digits addr in
  if negb (String.eqb ds EmptyString) && String.eqb tl pr_domain
  then [addr; ds]
  else [].

(** What the pattern says, read declaratively: one or more digits, then the
    domain, and nothing else. *)
Definition pr_pattern (addr digits : string) : Prop :=
  addr = digits +:+ pr_domain ∧ digits ≠ EmptyString ∧ all_digits digits = true.

End Address.

(** ** Data *)

(** Go's [error]: [None] is [nil], [Some msg] an error with its text. *)
Definition error : Type := string.

(** [*minecraft.Conn], as far as the listener reads it: the address the
    client typed, [c.ClientData().ServerAddress].  [conn_id] tells the
    connections of one run apart. *)
Record Conn : Type := { conn_id : nat; ServerAddress : string }.

(** [packet.Transfer]. [Port] is a [uint16]; no arithmetic is done on it. *)
Record Transfer : Type := { Address : string; Port : Z }.

(** [types.Port] and [types.Container] of the Docker API, as far as
    [ServerPort] reads them. *)
Record DockerPort : Type := { PublicPort : Z }.
Record Container : Type := { Ports : list DockerPort }.

#[global] Instance Conn_eq_dec : EqDecision Conn.
Proof. solve_decision. Defined.
#[global] Instance Transfer_eq_dec : EqDecision Transfer.
Proof. solve_decision. Defined.

(** ** Time

    A [time.Time] is the number of nanoseconds on the monotonic clock and a
    [time.Duration] an [int64] count of nanoseconds; [Time.Sub] saturates at
    the ends of [int64] instead of wrapping. *)
Module Time.

Definition minDuration : Z := - 2 ^ 63.
Definition maxDuration : Z := 2 ^ 63 - 1.

Definition Sub (t u : Z) : Z := Z.max minDuration (Z.min maxDuration (t - u)).

Definition Second : Z := 1000000000.
Definition Minute : Z := 60 * Second.
Definition Hour : Z := 60 * Minute.

End Time.

(** ** Operations on the collaborators and on the listener's map *)

Inductive ExtOp : Type :=
  | StartGame (c : Conn)                   (* c.StartGame(minecraft.GameData{}) *)
  | Disconnect (c : Conn) (msg : string)   (* l.listener.Disconnect(c, text.Colourf(msg)) *)
  | WritePacket (c : Conn) (pk : Transfer) (* c.WritePacket(&packet.Transfer{...}) *)
  | Stat (name : string)                   (* os.Stat(name) *)
  | ContainerList (label : string)         (* d.client.ContainerList, filter label=... *)
  | Exec (args : list string)              (* exec.Command(args...).Run() *)
  | Now.                                   (* time.Now() *)

Inductive MapOp : Type :=
  | MapStore (pr : string) (t : Z)         (* l.lastConnections[pr] = t *)
  | MapDelete (pr : string)                (* delete(l.lastConnections, pr) *)
  | MapLoad (pr : string)                  (* the value the range yields for pr *)
  | MapKeys.                               (* the keys a range starts to walk *)

Inductive Op : Type :=
  | Ext (e : ExtOp)
  | Mem (m : MapOp).

#[global] Instance ExtOp_eq_dec : EqDecision ExtOp.
Proof. solve_decision. Defined.
#[global] Instance MapOp_eq_dec : EqDecision MapOp.
Proof. solve_decision. Defined.
#[global] Instance Op_eq_dec : EqDecision Op.
Proof. solve_decision. Defined.

(** What each call returns.  Results the Go code throws away ([_ = ...])
    are [unit]. *)
Definition ExtAns (e : ExtOp) : Type :=
  match e with
  | StartGame _ => option error
  | Disconnect _ _ => unit
  | WritePacket _ _ => unit
  | Stat _ => option error
  | ContainerList _ => (list Container * option error)%type
  | Exec _ => option error
  | Now => Z
  end.

Definition MapAns (m : MapOp) : Type :=
  match m with
  | MapStore _ _ => unit
  | MapDelete _ => unit
  | MapLoad _ => option Z
  | MapKeys => list string
  end.

Definition Ans (o : Op) : Type :=
  match o with
  | Ext e => ExtAns e
  | Mem m => MapAns m
  end.

(** ** Programs *)

Inductive Prog (A : Type) : Type :=
  | Ret (a : A)
  | Panic                                   (* a run-time panic *)
  | Vis (o : Op) (k : Ans o → Prog A).

Arguments Ret {A} a.
Arguments Panic {A}.
Arguments Vis {A} o k.

Fixpoint bind {A B : Type} (p : Prog A) (f : A → Prog B) : Prog B :=
  match p with
  | Ret a => f a
  | Panic => Panic
  | Vis o k => Vis o (λ x, bind (k x) f)
  end.

#[global] Instance Prog_ret : MRet Prog := @Ret.
#[global] Instance Prog_bind : MBind Prog := λ A B f p, bind p f.

Definition ext (e : ExtOp) : Prog (ExtAns e) := Vis (Ext e) Ret.
Definition mem (m : MapOp) : Prog (MapAns m) := Vis (Mem m) Ret.

(** ** docker.go *)

Module Docker.

(** The command line of [StartServer]. *)
Definition run_args (pr : string) : list string :=
  let name := "pr-" +:+ pr in
  ["docker"; "run"; "-d"; "--rm"; "--name"; name; "--label"; "pr=" +:+ pr;
   "-v"; "./" +:+ name +:+ ":/" +:+ name; "-p"; "0:19132/udp"; name].

(** The command line of [StopServer].  No shell is involved: the words
    after the name are further arguments of [docker kill]. *)
Definition kill_args (pr : string) : list string :=
  let name := "pr-" +:+ pr in
  ["docker"; "kill"; "--signal=SIGINT"; name; "&&"; "docker"; "wait"; name].

(** [cmd.String()], up to the resolved path of the binary. *)
Definition cmd_string (args : list string) : string := String.concat " " args.

(** [func (d *Docker) ServerPort(pr string) (uint16, bool, error)].
    [containers[0].Ports[0]] panics on a container that lists no port. *)
Definition ServerPort (pr : string) : Prog (Z * bool * option error) :=
  '(containers, err) ← ext (ContainerList ("pr=" +:+ pr));
  match err with
  | Some e => mret (0, false, Some ("list containers: " +:+ e))
  | None =>
      match containers with
      | [] => mret (0, false, None)
      | c0 :: _ =>
          match Ports c0 with
          | [] => Panic
          | p0 :: _ => mret (PublicPort p0, true, None)
          end
      end
  end.

(** [func (d *Docker) StartServer(pr string) (uint16, bool, error)]. *)
Definition StartServer (pr : string) : Prog (Z * bool * option error) :=
  err ← ext (Exec (run_args pr));
  match err with
  | Some e =>
      mret (0, false,
            Some ("run command '" +:+ cmd_string (run_args pr) +:+ "': " +:+ e))
  | None =>
      '(port, found, err) ← ServerPort pr;
      match err with
      | Some e => mret (0, false, Some ("get server port: " +:+ e))
      | None => if negb found then mret (0, false, None)
                else mret (port, true, None)
      end
  end.

(** [func (d *Docker) StopServer(pr string)]: the error of the command is
    discarded and nothing is returned. *)
Definition StopServer (pr : string) : Prog unit :=
  _ ← ext (Exec (kill_args pr)); mret tt.

(** The command line of the build in [BuildImage]. *)
Definition build_args (pr : string) : list string :=
  let name := "pr-" +:+ pr in
  ["docker"; "build"; "--build-arg"; "PR=" +:+ pr; "-t"; name; "."].

(** [func (d *Docker) BuildImage(pr string) error]: the error of the build
    is returned as it is; the error of the kill that follows a successful
    build is discarded. *)
Definition BuildImage (pr : string) : Prog (option error) :=
  err ← ext (Exec (build_args pr));
  match err with
  | Some e => mret (Some e)
  | None => _ ← ext (Exec (kill_args pr)); mret None
  end.

(** The three command lines of [DeleteServer]. *)
Definition delete_kill_args (pr : string) : list string :=
  ["docker"; "kill"; "--signal=SIGINT"; "pr-" +:+ pr].

Definition delete_wait_args (pr : string) : list string :=
  ["docker"; "wait"; "pr-" +:+ pr].

Definition delete_image_args (pr : string) : list string :=
  ["docker"; "image"; "rm"; "pr-" +:+ pr].

(** [func (d *Docker) DeleteServer(pr string)]: three commands, the error
    of each discarded. *)
Definition DeleteServer (pr : string) : Prog unit :=
  _ ← ext (Exec (delete_kill_args pr));
  _ ← ext (Exec (delete_wait_args pr));
  _ ← ext (Exec (delete_image_args pr));
  mret tt.

End Docker.

(** ** listener.go *)

Module Listener.

Import Address.

(** Lines 127-139 of [handleConnection]: the guard on the zero port, then
    the transfer packet. *)
Definition redirect (c : Conn) (targetPort : Z) : Prog unit :=
  if targetPort =? 0
  then ext (Disconnect c "<red>Failed to determine target port</red>")
  else ext (WritePacket c {| Address := "df-mc.dev"; Port := targetPort |}).

(** Lines 118-119: the port is kept and the connection time recorded. *)
Definition touch (pr : string) : Prog unit :=
  now ← ext Now; mem (MapStore pr now).

(** [func (l *Listener) handleConnection(c *minecraft.Conn)]. *)
Definition handleConnection (c : Conn) : Prog unit :=
  err ← ext (StartGame c);
  match err with
  | Some _ => ext (Disconnect c "<red>Failed to start game</red>")
  | None =>
      let addr := before_colon (ServerAddress c) in
      if String.eqb addr "df-mc.dev" || String.eqb addr "188.166.78.44"
      then redirect c 19133
      else if String.eqb addr "plots.df-mc.dev"
      then redirect c 19134
      else
        match FindStringSubmatch addr with
        | _ :: pr :: _ =>
            err ← ext (Stat ("pr-" +:+ pr));
            match err with
            | Some _ =>
                ext (Disconnect c "<red>Invalid or outdated pull request</red>")
            | None =>
                '(port, found, err) ← Docker.ServerPort pr;
                match err with
                | Some _ =>
                    ext (Disconnect c "<red>Failed to get server port</red>")
                | None =>
                    if negb found
                    then
                      '(port, found, err) ← Docker.StartServer pr;
                      match err with
                      | Some _ =>
                          ext (Disconnect c "<red>Failed to start server</red>")
                      | None =>
                          if negb found
                          then ext (Disconnect c
                                 ("<red>Server not found for PR " +:+ pr +:+ "</red>"))
                          else (touch pr;; redirect c port)
                      end
                    else (touch pr;; redirect c port)
                end
            end
        | _ =>
            ext (Disconnect c
                   ("<red>Invalid server address: " +:+ addr +:+ "</red>"))
        end
  end.

(** The accept loop of [Listen] hands each accepted connection to
    [handleConnection] and waits for it to return before it accepts the
    next one: the connections of a run are handled one after another. *)
Fixpoint Listen (accepted : list Conn) : Prog unit :=
  match accepted with
  | [] => mret tt
  | c :: rest => handleConnection c;; Listen rest
  end.

(** One entry of the range in [KillInactiveServers]: the test on
    [time.Since(lastConn)], then the stop and the delete. *)
Definition sweep_entry (pr : string) : Prog unit :=
  v ← mem (MapLoad pr);
  match v with
  | None => mret tt
  | Some lastConn =>
      now ← ext Now;
      if Time.Hour <? Time.Sub now lastConn
      then (Docker.StopServer pr;; mem (MapDelete pr))
      else mret tt
  end.

Fixpoint sweep (prs : list string) : Prog unit :=
  match prs with
  | [] => mret tt
  | pr :: rest => sweep_entry pr;; sweep rest
  end.

(** The body of [case <-t.C:] in [KillInactiveServers], run once per tick
    of the five-minute ticker.  A Go range over a map yields each entry at
    most once, in no fixed order, skips entries deleted before they are
    reached, and gives the value the entry has when it is reached. *)
Definition tick : Prog unit :=
  prs ← mem MapKeys; sweep prs.

(** The period of the ticker, [time.Minute * 5]. *)
Definition sweep_period : Z := Time.Minute * 5.

(** What wakes the [select] of [KillInactiveServers]: the ticker, or the
    kill channel. *)
Inductive Wake : Type :=
  | TickC
  | KillC.

(** [func (l *Listener) KillInactiveServers()], along the wake-ups its
    [select] receives: a tick runs the sweep and the loop goes on; the kill
    channel stops the ticker and the function returns.  The result tells
    whether the function has returned ([true]) or still waits in its
    [select] when the wake-ups are used up ([false]). *)
Fixpoint KillInactiveServers (wakes : list Wake) : Prog bool :=
  match wakes with
  | [] => mret false
  | TickC :: rest => tick;; KillInactiveServers rest
  | KillC :: _ => mret true
  end.

(** What [listener.Accept()] returns: a connection, or an error, seen
    while [l.listener] is still set or after [Close] has cleared it. *)
Inductive Accepted : Type :=
  | AcceptConn (c : Conn)
  | AcceptError (closed : bool).

(** The loop of [func (l *Listener) Listen(addr string) error], along what
    [Accept] returns: an error after [Close] ends the loop with [nil], any
    other error is printed and the loop goes on, a connection is handled
    before the next [Accept].  The result is [Some nil] once the function
    has returned and [None] while it still waits in [Accept]. *)
Fixpoint accept_loop (accepts : list Accepted) : Prog (option (option error)) :=
  match accepts with
  | [] => mret None
  | AcceptConn c :: rest => handleConnection c;; accept_loop rest
  | AcceptError true :: _ => mret (Some None)
  | AcceptError false :: rest => accept_loop rest
  end.

(** [Listen] itself: when [minecraft.Listen] fails its error is returned
    and nothing is accepted. *)
Definition ListenOn (opened : option error) (accepts : list Accepted)
  : Prog (option (option error)) :=
  match opened with
  | Some e => mret (Some (Some e))
  | None => accept_loop accepts
  end.

(** The connections the loop hands to [handleConnection]: those accepted
    before the first error that follows [Close]. *)
Fixpoint served (accepts : list Accepted) : list Conn :=
  match accepts with
  | [] => []
  | AcceptConn c :: rest => c :: served rest
  | AcceptError true :: _ => []
  | AcceptError false :: rest => served rest
  end.

End Listener.

(** ** Running a program against the collaborators *)

(** One call together with what it returned. *)
Definition Obs : Type := sigT Ans.

Definition op_of (ob : Obs) : Op := projT1 ob.

(** The error an observed call returned, for the calls that return one. *)
Definition err_of (ob : Obs) : option error :=
  match ob with
  | existT (Ext (StartGame _)) a => a
  | existT (Ext (Stat _)) a => a
  | existT (Ext (ContainerList _)) a => a.2
  | existT (Ext (Exec _)) a => a
  | _ => None
  end.

(** The clock readings among a list of observed calls. *)
Definition reading (ob : Obs) : option Z :=
  match ob with
  | existT (Ext Now) t => Some t
  | _ => None
  end.

Definition readings (tr : list Obs) : list Z := omap reading tr.

Inductive Outcome (A : Type) : Type :=
  | Done (a : A)
  | Panicked.

Arguments Done {A} a.
Arguments Panicked {A}.

Section Run.

(** The collaborators: a type of states of the outside world and, for each
    call, the new state and the answer. *)
Context {W : Type} (env : ∀ e : ExtOp, W → W * ExtAns e).

Definition perform_mem (mo : MapOp) (m : gmap string Z)
  : gmap string Z * MapAns mo :=
  match mo with
  | MapStore pr t => (<[pr := t]> m, tt)
  | MapDelete pr => (delete pr m, tt)
  | MapLoad pr => (m, m !! pr)
  | MapKeys => (m, (map_to_list m).*1)
  end.

Definition perform (o : Op) (m : gmap string Z) (w : W)
  : gmap string Z * W * Ans o :=
  match o with
  | Ext e => let '(w', a) := env e w in (m, w', a)
  | Mem mo => let '(m', a) := perform_mem mo m in (m', w, a)
  end.

Record Final (A : Type) : Type := {
  outcome : Outcome A;
  final_map : gmap string Z;      (* lastConnections when the run ends *)
  final_world : W;
  trace : list Obs                (* the calls made, in order *)
}.

Arguments outcome {A} _.
Arguments final_map {A} _.
Arguments final_world {A} _.
Arguments trace {A} _.

Definition observe {A : Type} (ob : Obs) (r : Final A) : Final A :=
  {| outcome := outcome r; final_map := final_map r;
     final_world := final_world r; trace := ob :: trace r |}.

Fixpoint run {A : Type} (p : Prog A) (m : gmap string Z) (w : W) : Final A :=
  match p with
  | Ret a => {| outcome := Done a; final_map := m; final_world := w; trace := [] |}
  | Panic => {| outcome := Panicked; final_map := m; final_world := w; trace := [] |}
  | Vis o k =>
      let '(m', w', a) := perform o m w in
      observe (existT o a) (run (k a) m' w')
  end.

Definition calls {A : Type} (r : Final A) : list Op := op_of <$> trace r.

(** The run of a program followed by the run of what comes after it; a
    panic ends both. *)
Definition and_then {A B : Type} (r : Final A)
    (f : A → gmap string Z → W → Final B) : Final B :=
  match outcome r with
  | Done a =>
      let r' := f a (final_map r) (final_world r) in
      {| outcome := outcome r'; final_map := final_map r';
         final_world := final_world r'; trace := trace r ++ trace r' |}
  | Panicked =>
      {| outcome := Panicked; final_map := final_map r;
         final_world := final_world r; trace := trace r |}
  end.

End Run.

Arguments outcome {W A} _.
Arguments final_map {W A} _.
Arguments final_world {W A} _.
Arguments trace {W A} _.
Arguments calls {W A} _.

(** ** Vocabulary of the statements *)

(** A property of every call a program can make, whatever it is answered. *)
Inductive Always (ok : Op → Prop) {A : Type} : Prog A → Prop :=
  | always_ret a : Always ok (Ret a)
  | always_panic : Always ok Panic
  | always_vis o k : ok o → (∀ a, Always ok (k a)) → Always ok (Vis o k).

(** The calls a connection handler can make. *)
Definition handler_op (o : Op) : Prop :=
  match o with
  | Ext (WritePacket _ pk) => Address pk = "df-mc.dev" ∧ Port pk ≠ 0
  | Ext (Exec args) => ∃ pr, args = Docker.run_args pr
  | Ext _ => True
  | Mem (MapStore _ _) => True
  | Mem _ => False
  end.

(** The hostnames that lines 80-83 of [handleConnection] send to a fixed
    port. *)
Definition fixed_hostnames : list (string * Z) :=
  [("df-mc.dev", 19133); ("188.166.78.44", 19133); ("plots.df-mc.dev", 19134)].

(** Calls on the Docker daemon: the port query and the commands. *)
Definition is_driver_call (o : Op) : bool :=
  match o with
  | Ext (ContainerList _) | Ext (Exec _) => true
  | _ => false
  end.

(** Calls that resolve a pull request: the look-up of its directory and
    the calls on the daemon. *)
Definition is_registry_call (o : Op) : bool :=
  match o with
  | Ext (Stat _) => true
  | _ => is_driver_call o
  end.

(** Reads and writes of [lastConnections]. *)
Definition is_tracker_call (o : Op) : bool :=
  match o with Mem _ => true | _ => false end.

Definition is_redirect (o : Op) : bool :=
  match o with Ext (WritePacket _ _) => true | _ => false end.

Definition redirects (ops : list Op) : list Op :=
  filter (λ o, is_redirect o = true) ops.

(** The transfer packet that sends [c] to [port]. *)
Definition transfer_to (port : Z) (c : Conn) : Op :=
  Ext (WritePacket c {| Address := "df-mc.dev"; Port := port |}).

(** The command [StartServer] runs for [pr], and how often it was run. *)
Definition start_of (pr : string) : Op := Ext (Exec (Docker.run_args pr)).

Definition starts (pr : string) (ops : list Op) : nat :=
  length (filter (λ o, o = start_of pr) ops).

(** The command [StopServer] runs for [pr]. *)
Definition stop_of (pr : string) : Op := Ext (Exec (Docker.kill_args pr)).

(** What the stops of [pr] among the observed calls returned. *)
Definition stop_results (pr : string) (tr : list Obs) : list (option error) :=
  err_of <$> filter (λ ob, op_of ob = stop_of pr) tr.

(** The times stored for [pr] among [ops], in order. *)
Definition store_to (pr : string) (o : Op) : option Z :=
  match o with
  | Mem (MapStore p t) => if decide (p = pr) then Some t else None
  | _ => None
  end.

Definition touch_times (pr : string) (ops : list Op) : list Z :=
  omap (store_to pr) ops.

(** Calls on the Docker daemon, as a test on the external calls. *)
Definition is_docker_call (e : ExtOp) : bool :=
  match e with
  | ContainerList _ | Exec _ => true
  | _ => false
  end.

(** What the listener relies on when it starts a server on demand, said of
    any model of the collaborators.  [Idle] holds of the worlds in which
    the pull request [pr] is uploaded and no server of it runs, [Up] of
    those in which its server runs and publishes [port].  Calls other than
    those on the Docker daemon move the world out of neither; handshakes
    succeed and the directory of [pr] is found; in an idle world the port
    query finds nothing and the start command succeeds and brings the
    server up; once up, the port query finds the server's port. *)
Record StartsOnDemand {W : Type} (env : ∀ e : ExtOp, W → W * ExtAns e)
    (pr : string) (port : Z) (Idle Up : W → Prop) : Prop := {
  quiet_idle : ∀ e w, is_docker_call e = false → Idle w → Idle (env e w).1;
  quiet_up : ∀ e w, is_docker_call e = false → Up w → Up (env e w).1;
  handshake_ok : ∀ c w, Idle w ∨ Up w → (env (StartGame c) w).2 = None;
  artifact_found : ∀ w, Idle w ∨ Up w → (env (Stat ("pr-" +:+ pr)) w).2 = None;
  idle_query : ∀ w, Idle w →
    (env (ContainerList ("pr=" +:+ pr)) w).2 = ([], None)
    ∧ Idle (env (ContainerList ("pr=" +:+ pr)) w).1;
  idle_start : ∀ w, Idle w →
    (env (Exec (Docker.run_args pr)) w).2 = None
    ∧ Up (env (Exec (Docker.run_args pr)) w).1;
  up_query : ∀ w, Up w →
    (∃ c0 cs p0 ps,
        (env (ContainerList ("pr=" +:+ pr)) w).2 = (c0 :: cs, None)
        ∧ Ports c0 = p0 :: ps ∧ PublicPort p0 = port)
    ∧ Up (env (ContainerList ("pr=" +:+ pr)) w).1
}.

(** ** A reference model of the collaborators

    A small executable world: which handshakes fail, which directories
    exist, which images are built, which containers run and on which
    published port.  It is one model among those the general theorems
    quantify over; the examples and the runs of several connections use
    it. *)
Module Sim.

Record Running : Type := { r_name : string; r_label : string; r_port : Z }.

Record World : Type := {
  bad_handshakes : list nat;    (* conn_id of the clients whose StartGame fails *)
  dirs : list string;           (* paths os.Stat finds *)
  daemon_up : bool;             (* whether the Docker daemon answers *)
  images : list string;         (* images that have been built *)
  running : list Running;       (* containers that run *)
  next_port : Z;                (* the port the next container publishes *)
  clock : Z                     (* what time.Now reads *)
}.

Definition has (x : string) (l : list string) : bool :=
  existsb (String.eqb x) l.

(** Whether the handshake of [c] fails. *)
Definition refuses (w : World) (c : Conn) : bool :=
  existsb (Nat.eqb (conn_id c)) (bad_handshakes w).

(** The running containers that carry [label]. *)
Definition labelled (label : string) (rs : list Running) : list Running :=
  filter (λ r, String.eqb (r_label r) label = true) rs.

Definition set_running (rs : list Running) (p : Z) (w : World) : World :=
  {| bad_handshakes := bad_handshakes w; dirs := dirs w;
     daemon_up := daemon_up w; images := images w;
     running := rs; next_port := p; clock := clock w |}.

Definition set_daemon (up : bool) (w : World) : World :=
  {| bad_handshakes := bad_handshakes w; dirs := dirs w;
     daemon_up := up; images := images w;
     running := running w; next_port := next_port w; clock := clock w |}.

Definition to_container (r : Running) : Container :=
  {| Ports := [ {| PublicPort := r_port r |} ] |}.

(** [docker run -d --rm --name NAME --label LABEL -v VOL -p PUB IMAGE]
    needs the daemon, the image and a free name; the container then
    publishes the next port.  [docker kill --signal=SIGINT NAMES...] stops
    those of the names that run and reports an error if any of them does
    not.  Any other command fails. *)
Definition exec (args : list string) (w : World) : World * option error :=
  match args with
  | ["docker"; "run"; "-d"; "--rm"; "--name"; name; "--label"; label;
     "-v"; _; "-p"; _; image] =>
      if daemon_up w && has image (images w)
         && negb (has name (r_name <$> running w))
      then (set_running
              (running w ++ [ {| r_name := name; r_label := label;
                                 r_port := next_port w |} ])
              (next_port w + 1) w, None)
      else (w, Some "exit status 125")
  | "docker" :: "kill" :: "--signal=SIGINT" :: names =>
      if daemon_up w
      then (set_running
              (filter (λ r, has (r_name r) names = false) (running w))
              (next_port w) w,
            if forallb (λ n, has n (r_name <$> running w)) names
            then None else Some "exit status 1")
      else (w, Some "exit status 1")
  | _ => (w, Some "exit status 127")
  end.

Definition env (e : ExtOp) (w : World) : World * ExtAns e :=
  match e with
  | StartGame c =>
      (w, if refuses w c then Some "connection closed" else None)
  | Disconnect _ _ => (w, tt)
  | WritePacket _ _ => (w, tt)
  | Stat name =>
      (w, if has name (dirs w) then None
          else Some "no such file or directory")
  | ContainerList label =>
      (w, if daemon_up w
          then (to_container <$> labelled label (running w), None)
          else ([], Some "cannot connect to the Docker daemon"))
  | Exec args => exec args w
  | Now => (w, clock w)
  end.

Arguments has : simpl never.
Arguments refuses : simpl never.
Arguments labelled : simpl never.

End Sim.

(** ** Scenarios on the reference model *)

Module Scenario.

Import Listener.

Definition client (i : nat) (addr : string) : Conn :=
  {| conn_id := i; ServerAddress := addr |}.

(** Pull request 42 has been uploaded and built and no container runs; it
    is two hours after the origin of the clock. *)
Definition idle : Sim.World :=
  {| Sim.bad_handshakes := []; Sim.dirs := ["pr-42"]; Sim.daemon_up := true;
     Sim.images := ["pr-42"]; Sim.running := []; Sim.next_port := 32768;
     Sim.clock := 2 * Time.Hour |}.

(** The same, with the server of pull request 42 up on port 32768. *)
Definition up : Sim.World :=
  Sim.set_running
    [ {| Sim.r_name := "pr-42"; Sim.r_label := "pr=42"; Sim.r_port := 32768 |} ]
    32769 idle.

(** The same, with the Docker daemon out of reach: every command fails. *)
Definition unreachable : Sim.World := Sim.set_daemon false up.

(** A built pull request whose container would publish no port. *)
Definition portless : Sim.World := Sim.set_running [] 0 idle.

Definition alice : Conn := client 0 "42.df-mc.dev".
Definition bob : Conn := client 1 "42.df-mc.dev".

(** A sweep while the daemon is out of reach. *)
Definition failed_sweep : Final unit :=
  run Sim.env tick {["42" := 0]} unreachable.

End Scenario.

(** ** Two more worlds

    A world in which the handshake of client 0 fails, and the reference
    model with a clock that reads [now] whenever it is asked. *)

Definition refusing : Sim.World :=
  {| Sim.bad_handshakes := [0%nat]; Sim.dirs := ["pr-42"]; Sim.daemon_up := true;
     Sim.images := ["pr-42"]; Sim.running := []; Sim.next_port := 32768;
     Sim.clock := 2 * Time.Hour |}.

Definition steady_env (now : Z) (e : ExtOp) (w : Sim.World) : Sim.World * ExtAns e :=
  match e with
  | Now => (w, now)
  | e => Sim.env e w
  end.

(** ** The clock and the ticker *)

(** What the code relies on of the clock, said of any model of the
    collaborators: [time.Now] reads the clock of the world, and no call
    sets it back. *)
Record ClockAdvances {W : Type} (env : ∀ e : ExtOp, W → W * ExtAns e)
    (clock : W → Z) : Prop := {
  now_reads : ∀ w, (env Now w).2 = clock w;
  never_back : ∀ e w, clock w ≤ clock (env e w).1
}.

(** The moment at which tick [k] (from 0) of the ticker of
    [KillInactiveServers] is due when the ticker was made at [start]:
    [time.NewTicker(time.Minute * 5)] ticks once every period. *)
Definition due (start : Z) (k : nat) : Z :=
  start + Z.of_nat (S k) * Listener.sweep_period.

(** The run of tick [k] when every tick is handled at the moment it is
    due, after the ticks before it: [at_time t] is the collaborators while
    the clock reads [t]. *)
Fixpoint nth_tick {W : Type} (at_time : Z → ∀ e : ExtOp, W → W * ExtAns e)
    (start : Z) (k : nat) (m : gmap string Z) (w : W) : Final unit :=
  match k with
  | O => run (at_time (due start 0)) Listener.tick m w
  | S k' =>
      let r := nth_tick at_time start k' m w in
      run (at_time (due start k)) Listener.tick (final_map r) (final_world r)
  end.

(** The reference model with a clock that every reading moves on by a
    second. *)
Definition with_clock (t : Z) (w : Sim.World) : Sim.World :=
  {| Sim.bad_handshakes := Sim.bad_handshakes w; Sim.dirs := Sim.dirs w;
     Sim.daemon_up := Sim.daemon_up w; Sim.images := Sim.images w;
     Sim.running := Sim.running w; Sim.next_port := Sim.next_port w;
     Sim.clock := t |}.

Definition ticking_env (e : ExtOp) (w : Sim.World) : Sim.World * ExtAns e :=
  let '(w', a) := Sim.env e w in
  (with_clock (Sim.clock w + match e with Now => Time.Second | _ => 0 end) w', a).

(** ** Vocabulary for the paths of a program *)

(** [Q] holds of every complete run of [p], whatever each call is
    answered: a run is the list of the calls with their answers and the
    way it ends. *)
Fixpoint AllRuns {A : Type} (p : Prog A) (Q : list Obs → Outcome A → Prop) : Prop :=
  match p with
  | Ret a => Q [] (Done a)
  | Panic => Q [] Panicked
  | Vis o k => ∀ a, AllRuns (k a) (λ tr out, Q (existT o a :: tr) out)
  end.

(** What a client gets to see of its connection: a disconnect or a
    transfer. *)
Definition is_verdict (o : Op) : bool :=
  match o with
  | Ext (Disconnect _ _) | Ext (WritePacket _ _) => true
  | _ => false
  end.

Definition verdicts (ops : list Op) : list Op :=
  omap (λ o, if is_verdict o then Some o else None) ops.

(** A call that, if it looks something up, runs a command or writes to the
    map at all, does so for the pull request [ds] and starts, never stops,
    a server. *)
Definition for_pr (ds : string) (o : Op) : Prop :=
  match o with
  | Ext (Stat name) => name = "pr-" +:+ ds
  | Ext (ContainerList label) => label = "pr=" +:+ ds
  | Ext (Exec args) => args = Docker.run_args ds
  | Mem (MapStore pr _) => pr = ds
  | Mem _ => False
  | _ => True
  end.

(** The commands and the port queries among a list of calls. *)
Definition execs (ops : list Op) : list Op :=
  omap (λ o, match o with Ext (Exec _) => Some o | _ => None end) ops.

Definition queries (ops : list Op) : list Op :=
  omap (λ o, match o with Ext (ContainerList _) => Some o | _ => None end) ops.

(** The map operations among a list of calls, and the map they leave. *)
Definition mem_ops (ops : list Op) : list MapOp :=
  omap (λ o, match o with Mem mo => Some mo | _ => None end) ops.

Definition replay (ops : list Op) (m : gmap string Z) : gmap string Z :=
  foldl (λ m mo, (perform_mem mo m).1) m (mem_ops ops).

(** A call that deletes nothing and stores only under a key of digits. *)
Definition store_ok (o : Op) : Prop :=
  match o with
  | Mem (MapStore pr _) => pr ≠ EmptyString ∧ Address.all_digits pr = true
  | Mem (MapDelete _) => False
  | _ => True
  end.

(** A port query answered with a list whose first container has no port:
    the case in which [containers[0].Ports[0]] is out of range. *)
Definition portless (ob : Obs) : bool :=
  match ob with
  | existT (Ext (ContainerList _)) (c0 :: _, None) =>
      match Ports c0 with [] => true | _ => false end
  | _ => false
  end.

(** How often the stop command of [pr] was run. *)
Definition stops (pr : string) (ops : list Op) : nat :=
  length (filter (λ o, o = stop_of pr) ops).

#[global] Instance Wake_eq_dec : EqDecision Listener.Wake.
Proof. solve_decision. Defined.

(** What [ServerPort] and [StartServer] promise of their three results. *)
Definition port_result_ok (out : Outcome (Z * bool * option error)) : Prop :=
  match out with
  | Done (port, found, err) =>
      (found = true → err = None) ∧ (found = false → port = 0)
  | Panicked => True
  end.

(** Whether [Accept] reports an error after [Close] among [accepts]. *)
Definition closes (accepts : list Listener.Accepted) : bool :=
  existsb (λ a, match a with Listener.AcceptError true => true | _ => false end)
    accepts.


(** ** The fields [Close] works on

    [listener] and [killChan] of the [Listener] struct; [lastConnections]
    is the map of the runs above. *)
Module Lifecycle.

(** A channel that has been made is open or closed. *)
Inductive Chan : Type :=
  | ChanOpen
  | ChanClosed.

(** [listener] holds the [minecraft.Listener] that [Listen] opened, named
    by a number, or [nil]; [killChan] holds a channel or [nil]. *)
Record Fields : Type := { listener : option nat; killChan : option Chan }.

(** [func NewListener(docker *Docker) *Listener]: the struct literal sets
    [docker] and [lastConnections] and leaves the other fields [nil]. *)
Definition NewListener : Fields := {| listener := None; killChan := None |}.

(** Line 41 of [Listen], [l.listener = listener]. *)
Definition opened (h : nat) (l : Fields) : Fields :=
  {| listener := Some h; killChan := killChan l |}.

(** [func (l *Listener) Close()]: the new fields and the listeners whose
    [Close] was called, or [None] for the panic of closing a channel that
    is closed already. *)
Definition Close (l : Fields) : option (Fields * list nat) :=
  let '(l1, closed) :=
    match listener l with
    | Some h => ({| listener := None; killChan := killChan l |}, [h])
    | None => (l, [])
    end in
  match killChan l1 with
  | Some ChanOpen => Some ({| listener := listener l1; killChan := Some ChanClosed |}, closed)
  | Some ChanClosed => None
  | None => Some (l1, closed)
  end.

(** What happens to a listener, in order: [Listen] opens a
    [minecraft.Listener], or [Close] is called. *)
Inductive Event : Type :=
  | Opens (h : nat)
  | Closes.

Fixpoint life (evs : list Event) (l : Fields) : option (Fields * list nat) :=
  match evs with
  | [] => Some (l, [])
  | Opens h :: rest => life rest (opened h l)
  | Closes :: rest =>
      match Close l with
      | Some (l', closed) =>
          match life rest l' with
          | Some (l'', closed') => Some (l'', closed ++ closed')
          | None => None
          end
      | None => None
      end
  end.

(** Whether [case <-l.killChan] of a [select] can be taken: a receive from
    a [nil] channel blocks for ever, and so does one from an open channel
    on which nothing is ever sent; a closed channel delivers. *)
Definition kill_ready (l : Fields) : bool :=
  match killChan l with
  | Some ChanClosed => true
  | _ => false
  end.

(** The listeners that were opened and then closed by the next [Close]. *)
Fixpoint closed_by (evs : list Event) (current : option nat) : list nat :=
  match evs with
  | [] => []
  | Opens h :: rest => closed_by rest (Some h)
  | Closes :: rest => option_list current ++ closed_by rest None
  end.

End Lifecycle.

(** ** strconv *)

Module Strconv.

(** The ends of [int] on a 64-bit platform. *)
Definition minInt : Z := - 2 ^ 63.
Definition maxInt : Z := 2 ^ 63 - 1.

Definition digit_value (c : Ascii.ascii) : Z := Z.of_N (Ascii.N_of_ascii c) - 48.

(** The value of a string of decimal digits, most significant first. *)
Fixpoint decimal (acc : Z) (s : string) : Z :=
  match s with
  | EmptyString => acc
  | String c rest => decimal (acc * 10 + digit_value c) rest
  end.

(** An optional sign, taken off the front. *)
Definition split_sign (s : string) : bool * string :=
  match s with
  | String c rest =>
      if Ascii.eqb c "-" then (true, rest)
      else if Ascii.eqb c "+" then (false, rest)
      else (false, s)
  | EmptyString => (false, s)
  end.

(** [strconv.Atoi(s)]: an optional sign and one or more decimal digits,
    nothing else, and a value that fits [int]; [None] is any of its
    errors. *)
Definition Atoi (s : string) : option Z :=
  let '(neg, body) := split_sign s in
  if negb (String.eqb body EmptyString) && Address.all_digits body
  then
    let n := decimal 0 body in
    let v := if neg then - n else n in
    if (minInt <=? v) && (v <=? maxInt) then Some v else None
  else None.

End Strconv.

Arguments Strconv.Atoi : simpl never.

(** ** The calls of router.go and of the Docker API client *)

(** [types.Container], as far as [ClearContainers] reads it. *)
Record Summary : Type := { ID : string; Image : string }.

Inductive AdminOp : Type :=
  | ListAll                                (* d.client.ContainerList, ListOptions{All: true} *)
  | ContainerKill (id signal : string)     (* d.client.ContainerKill(ctx, id, signal) *)
  | HeaderGet (key : string)               (* request.Header.Get(key) *)
  | ParseMultipartForm (maxMemory : Z)     (* request.ParseMultipartForm(maxMemory) *)
  | FormValue (key : string)               (* request.FormValue(key) *)
  | FormFile (key : string)                (* request.FormFile(key) *)
  | PathValue (name : string)              (* request.PathValue(name) *)
  | HttpError (msg : string) (code : Z)    (* http.Error(writer, msg, code) *)
  | WriteHeader (code : Z)                 (* writer.WriteHeader(code) *)
  | Mkdir (name : string) (perm : Z)       (* os.Mkdir(name, perm) *)
  | Create (name : string)                 (* os.Create(name) *)
  | Seek (offset whence : Z)               (* file.Seek(offset, whence) *)
  | Copy                                   (* io.Copy(out, file) *)
  | CloseFile                              (* out.Close(), deferred *)
  | RemoveAll (path : string)              (* os.RemoveAll(path) *)
  | Remove (name : string).                (* os.Remove(name) *)

#[global] Instance AdminOp_eq_dec : EqDecision AdminOp.
Proof. solve_decision. Defined.

Definition AdminAns (a : AdminOp) : Type :=
  match a with
  | ListAll => (list Summary * option error)%type
  | ContainerKill _ _ => option error
  | HeaderGet _ => string
  | ParseMultipartForm _ => option error
  | FormValue _ => string
  | FormFile _ => option error
  | PathValue _ => string
  | HttpError _ _ => unit
  | WriteHeader _ => unit
  | Mkdir _ _ => option error
  | Create _ => option error
  | Seek _ _ => option error
  | Copy => option error
  | CloseFile => option error
  | RemoveAll _ => option error
  | Remove _ => option error
  end.

(** A call of the listener's side, or one of the above. *)
Inductive SysOp : Type :=
  | Core (o : Op)
  | Adm (a : AdminOp).

#[global] Instance SysOp_eq_dec : EqDecision SysOp.
Proof. solve_decision. Defined.

Definition SysAns (o : SysOp) : Type :=
  match o with
  | Core o => Ans o
  | Adm a => AdminAns a
  end.

(** Programs over all the calls. *)
Inductive Act (A : Type) : Type :=
  | Pure (a : A)
  | Crash
  | Call (o : SysOp) (k : SysAns o → Act A).

Arguments Pure {A} a.
Arguments Crash {A}.
Arguments Call {A} o k.

Fixpoint act_bind {A B : Type} (p : Act A) (f : A → Act B) : Act B :=
  match p with
  | Pure a => f a
  | Crash => Crash
  | Call o k => Call o (λ x, act_bind (k x) f)
  end.

#[global] Instance Act_ret : MRet Act := @Pure.
#[global] Instance Act_bind : MBind Act := λ A B f p, act_bind p f.

Definition adm (a : AdminOp) : Act (AdminAns a) := Call (Adm a) Pure.

(** A program of the listener's side, as a program over all the calls. *)
Fixpoint lift {A : Type} (p : Prog A) : Act A :=
  match p with
  | Ret a => Pure a
  | Panic => Crash
  | Vis o k => Call (Core o) (λ x, lift (k x))
  end.

(** ** The rest of docker.go *)

Module Cleanup.

(** The loop of [ClearContainers] over the listed containers: those whose
    image name starts with [pr-] are killed, and the first kill that fails
    ends the loop with its error. *)
Fixpoint kill_each (containers : list Summary) : Act (option error) :=
  match containers with
  | [] => mret None
  | c :: rest =>
      if String.prefix "pr-" (Image c)
      then
        err ← adm (ContainerKill (ID c) "SIGINT");
        match err with
        | Some e => mret (Some ("remove container " +:+ ID c +:+ ": " +:+ e))
        | None => kill_each rest
        end
      else kill_each rest
  end.

(** [func (d *Docker) ClearContainers() error]. *)
Definition ClearContainers : Act (option error) :=
  '(containers, err) ← adm ListAll;
  match err with
  | Some e => mret (Some ("list containers: " +:+ e))
  | None => kill_each containers
  end.

End Cleanup.

(** ** router.go *)

Module Router.

Definition StatusCreated : Z := 201.
Definition StatusNoContent : Z := 204.
Definition StatusBadRequest : Z := 400.
Definition StatusUnauthorized : Z := 401.
Definition StatusNotFound : Z := 404.
Definition StatusInternalServerError : Z := 500.

(** [func (r *Router) apiKeyMiddleware(next http.Handler) http.Handler],
    for a router whose key is [apiKey]. *)
Definition apiKeyMiddleware (apiKey : string) (next : Act unit) : Act unit :=
  key ← adm (HeaderGet "X-API-Key");
  if negb (String.eqb key apiKey)
  then adm (HttpError "Unauthorized" StatusUnauthorized)
  else next.

(** [func uploadBinary(pr string, file multipart.File) error].  The error
    of [os.Mkdir] is discarded; once the file is created its [Close] is
    deferred, so it runs on each way out, and what it returns is
    discarded too. *)
Definition uploadBinary (pr : string) : Act (option error) :=
  _ ← adm (Mkdir ("pr-" +:+ pr) 493);
  err ← adm (Create ("binaries/pr-" +:+ pr));
  match err with
  | Some e => mret (Some ("failed to create file: " +:+ e))
  | None =>
      err ← adm (Seek 0 0);
      match err with
      | Some e => _ ← adm CloseFile; mret (Some ("failed to seek file: " +:+ e))
      | None =>
          err ← adm Copy;
          match err with
          | Some e => _ ← adm CloseFile; mret (Some ("failed to copy file: " +:+ e))
          | None => _ ← adm CloseFile; mret None
          end
      end
  end.

(** [func (r *Router) handleCreatePullRequest(writer, request)]. *)
Definition handleCreatePullRequest : Act unit :=
  err ← adm (ParseMultipartForm (10 * 2 ^ 20));
  match err with
  | Some _ => adm (HttpError "Failed to parse form" StatusBadRequest)
  | None =>
      pr ← adm (FormValue "pr");
      match Strconv.Atoi pr with
      | None => adm (HttpError "Invalid PR number" StatusBadRequest)
      | Some _ =>
          err ← adm (FormFile "binary");
          match err with
          | Some _ =>
              adm (HttpError "Failed to get file from form" StatusBadRequest)
          | None =>
              err ← uploadBinary pr;
              match err with
              | Some e =>
                  adm (HttpError ("Failed to upload binary: " +:+ e)
                         StatusInternalServerError)
              | None =>
                  err ← lift (Docker.BuildImage pr);
                  match err with
                  | Some e =>
                      adm (HttpError ("Failed to build image: " +:+ e)
                             StatusInternalServerError)
                  | None => adm (WriteHeader StatusCreated)
                  end
              end
          end
      end
  end.

(** [func (r *Router) handleDeletePullRequest(writer, request)].
    [notExist] is [errors.Is(err, os.ErrNotExist)] as a test on errors,
    which errors kept as their text cannot decide.  The errors of the two
    removals are discarded. *)
Definition handleDeletePullRequest (notExist : error → bool) : Act unit :=
  pr ← adm (PathValue "pr");
  match Strconv.Atoi pr with
  | None => adm (HttpError "Invalid PR number" StatusBadRequest)
  | Some _ =>
      err ← lift (ext (Stat ("pr-" +:+ pr)));
      if match err with Some e => notExist e | None => false end
      then adm (HttpError "PR not found" StatusNotFound)
      else
        lift (Docker.DeleteServer pr);;
        adm (RemoveAll ("pr-" +:+ pr));;
        adm (Remove ("binaries/pr-" +:+ pr));;
        adm (WriteHeader StatusNoContent)
  end.

(** The two routes [Run] registers, each behind the middleware. *)
Definition postPullRequest (apiKey : string) : Act unit :=
  apiKeyMiddleware apiKey handleCreatePullRequest.

Definition deletePullRequest (apiKey : string) (notExist : error → bool) : Act unit :=
  apiKeyMiddleware apiKey (handleDeletePullRequest notExist).

End Router.

(** ** Running a program over all the calls *)

Definition SysObs : Type := sigT SysAns.

Definition sys_op (ob : SysObs) : SysOp := projT1 ob.

Section ActRun.

Context {W : Type} (env : ∀ e : ExtOp, W → W * ExtAns e).
Context (aenv : ∀ a : AdminOp, W → W * AdminAns a).

Definition act_perform (o : SysOp) (m : gmap string Z) (w : W)
  : gmap string Z * W * SysAns o :=
  match o with
  | Core o => perform env o m w
  | Adm a => let '(w', x) := aenv a w in (m, w', x)
  end.

Record Report (A : Type) : Type := {
  result : Outcome A;
  end_map : gmap string Z;
  end_world : W;
  history : list SysObs
}.

Arguments result {A} _.
Arguments end_map {A} _.
Arguments end_world {A} _.
Arguments history {A} _.

Fixpoint act_run {A : Type} (p : Act A) (m : gmap string Z) (w : W) : Report A :=
  match p with
  | Pure a => {| result := Done a; end_map := m; end_world := w; history := [] |}
  | Crash => {| result := Panicked; end_map := m; end_world := w; history := [] |}
  | Call o k =>
      let '(m', w', x) := act_perform o m w in
      let r := act_run (k x) m' w' in
      {| result := result r; end_map := end_map r; end_world := end_world r;
         history := existT o x :: history r |}
  end.

Definition done {A : Type} (r : Report A) : list SysOp := sys_op <$> history r.

End ActRun.

Arguments result {W A} _.
Arguments end_map {W A} _.
Arguments end_world {W A} _.
Arguments history {W A} _.
Arguments done {W A} _.

(** [Q] holds of every complete run of [p], whatever each call is answered. *)
Fixpoint EveryRun {A : Type} (p : Act A) (Q : list SysObs → Outcome A → Prop) : Prop :=
  match p with
  | Pure a => Q [] (Done a)
  | Crash => Q [] Panicked
  | Call o k => ∀ x, EveryRun (k x) (λ tr out, Q (existT o x :: tr) out)
  end.

(** ** Vocabulary for the requests *)

(** The status a call answers the request with, if it answers it. *)
Definition status (o : SysOp) : option Z :=
  match o with
  | Adm (HttpError _ code) | Adm (WriteHeader code) => Some code
  | _ => None
  end.

Definition statuses (ops : list SysOp) : list Z := omap status ops.

(** The pull request a request names: what [FormValue] or [PathValue]
    answered. *)
Definition named (ob : SysObs) : option string :=
  match ob with
  | existT (Adm (FormValue _)) pr => Some pr
  | existT (Adm (PathValue _)) pr => Some pr
  | _ => None
  end.

(** A call that writes to the disk, runs a command, signals a container or
    writes to the listener's map. *)
Definition is_effect (o : SysOp) : bool :=
  match o with
  | Adm (Mkdir _ _) | Adm (Create _) | Adm (Seek _ _) | Adm Copy | Adm CloseFile
  | Adm (RemoveAll _) | Adm (Remove _) | Adm (ContainerKill _ _) => true
  | Core (Ext (Exec _)) => true
  | Core (Mem (MapStore _ _)) | Core (Mem (MapDelete _)) => true
  | _ => false
  end.

Definition effects (ops : list SysOp) : list SysOp :=
  omap (λ o, if is_effect o then Some o else None) ops.

(** A call that reaches the host at all: an effect, a look-up or a list of
    containers. *)
Definition touches_host (o : SysOp) : bool :=
  match o with
  | Core (Ext (Stat _)) | Core (Ext (ContainerList _)) | Adm ListAll => true
  | _ => is_effect o
  end.

(** An optional sign and one or more decimal digits. *)
Definition numeral (s : string) : Prop :=
  ∃ body, (s = body ∨ s = String "+" body ∨ s = String "-" body)
          ∧ body ≠ EmptyString ∧ Address.all_digits body = true.

(** A call that, if it names a path or runs a command, names only the two
    paths of the pull request [s] or runs one of its five commands, and
    that neither lists nor signals containers nor uses the listener's
    map. *)
Definition names_only (s : string) (o : SysOp) : Prop :=
  match o with
  | Adm (Mkdir name _) | Adm (RemoveAll name) | Core (Ext (Stat name)) =>
      name = "pr-" +:+ s
  | Adm (Create name) | Adm (Remove name) => name = "binaries/pr-" +:+ s
  | Core (Ext (Exec args)) =>
      args ∈ [Docker.build_args s; Docker.kill_args s; Docker.delete_kill_args s;
              Docker.delete_wait_args s; Docker.delete_image_args s]
  | Core (Ext (ContainerList _)) | Core (Mem _) => False
  | Adm ListAll | Adm (ContainerKill _ _) => False
  | _ => True
  end.

(** The signals sent, with the container each went to. *)
Definition kills (ops : list SysOp) : list (string * string) :=
  omap (λ o, match o with Adm (ContainerKill id sig) => Some (id, sig) | _ => None end)
    ops.

(** The containers of [ClearContainers]' concern. *)
Definition pr_containers (cs : list Summary) : list Summary :=
  filter (λ c, String.prefix "pr-" (Image c) = true) cs.

(** The calls of the listener's side among a list of calls. *)
Definition core_ops (ops : list SysOp) : list Op :=
  omap (λ o, match o with Core o => Some o | Adm _ => None end) ops.

(** A run as it is when the request is authorised, names [pr], and the
    form, the file, its creation, the seek, the copy and the build succeed;
    [made], [closed] and [stopped] are what [os.Mkdir], [out.Close] and the
    kill that follows the build report. *)
Definition created_run (apiKey pr : string) (made closed stopped : option error)
  : list SysObs :=
  [ existT (Adm (HeaderGet "X-API-Key")) apiKey;
    existT (Adm (ParseMultipartForm (10 * 2 ^ 20))) None;
    existT (Adm (FormValue "pr")) pr;
    existT (Adm (FormFile "binary")) None;
    existT (Adm (Mkdir ("pr-" +:+ pr) 493)) made;
    existT (Adm (Create ("binaries/pr-" +:+ pr))) None;
    existT (Adm (Seek 0 0)) None;
    existT (Adm Copy) None;
    existT (Adm CloseFile) closed;
    existT (Core (Ext (Exec (Docker.build_args pr)))) None;
    existT (Core (Ext (Exec (Docker.kill_args pr)))) stopped;
    existT (Adm (WriteHeader 201)) tt ].

(** The same for a delete: [found] is what [os.Stat] answered, and the
    three commands and the two removals report the errors [ks]. *)
Definition deleted_run (apiKey pr : string) (found : option error)
    (ks : option error * option error * option error * option error * option error)
  : list SysObs :=
  let '(k1, k2, k3, r1, r2) := ks in
  [ existT (Adm (HeaderGet "X-API-Key")) apiKey;
    existT (Adm (PathValue "pr")) pr;
    existT (Core (Ext (Stat ("pr-" +:+ pr)))) found;
    existT (Core (Ext (Exec (Docker.delete_kill_args pr)))) k1;
    existT (Core (Ext (Exec (Docker.delete_wait_args pr)))) k2;
    existT (Core (Ext (Exec (Docker.delete_image_args pr)))) k3;
    existT (Adm (RemoveAll ("pr-" +:+ pr))) r1;
    existT (Adm (Remove ("binaries/pr-" +:+ pr))) r2;
    existT (Adm (WriteHeader 204)) tt ].

(** What an upload meets, said of the collaborators alone: the key the
    request carries is the router's, the form parses, its [pr] value is a
    number, it has a [binary] file, and the creation of the file, the
    seek, the copy and the build report no error.  The calls are asked in
    the order of the handler, each in the world the one before left;
    what [os.Mkdir] and [out.Close] report is not looked at. *)
Definition upload_goes_through {W : Type} (env : ∀ e : ExtOp, W → W * ExtAns e)
    (aenv : ∀ a : AdminOp, W → W * AdminAns a) (apiKey : string) (w : W) : Prop :=
  let '(w1, key) := aenv (HeaderGet "X-API-Key") w in
  let '(w2, parsed) := aenv (ParseMultipartForm (10 * 2 ^ 20)) w1 in
  let '(w3, pr) := aenv (FormValue "pr") w2 in
  let '(w4, file) := aenv (FormFile "binary") w3 in
  let '(w5, _) := aenv (Mkdir ("pr-" +:+ pr) 493) w4 in
  let '(w6, created) := aenv (Create ("binaries/pr-" +:+ pr)) w5 in
  let '(w7, sought) := aenv (Seek 0 0) w6 in
  let '(w8, copied) := aenv Copy w7 in
  let '(w9, _) := aenv CloseFile w8 in
  let '(_, built) := env (Exec (Docker.build_args pr)) w9 in
  key = apiKey ∧ parsed = None ∧ is_Some (Strconv.Atoi pr) ∧ file = None
  ∧ created = None ∧ sought = None ∧ copied = None ∧ built = None.

(** The same for a delete: the key is the router's, the path value is a
    number, and [os.Stat] of the directory reports no error that is
    [os.ErrNotExist]. *)
Definition delete_goes_through {W : Type} (env : ∀ e : ExtOp, W → W * ExtAns e)
    (aenv : ∀ a : AdminOp, W → W * AdminAns a) (apiKey : string)
    (notExist : error → bool) (w : W) : Prop :=
  let '(w1, key) := aenv (HeaderGet "X-API-Key") w in
  let '(w2, pr) := aenv (PathValue "pr") w1 in
  let '(_, found) := env (Stat ("pr-" +:+ pr)) w2 in
  key = apiKey ∧ is_Some (Strconv.Atoi pr)
  ∧ (∀ e, found = Some e → notExist e = false).

(** The errors the signals sent came back with. *)
Definition kill_error (ob : SysObs) : option error :=
  match ob with
  | existT (Adm (ContainerKill _ _)) (Some e) => Some e
  | _ => None
  end.

Definition kill_errors (tr : list SysObs) : list error := omap kill_error tr.

(** The signal [ClearContainers] sends to a container. *)
Definition sigint (c : Summary) : string * string := (ID c, "SIGINT").

(** The world a list of calls leaves: it does not depend on the answers. *)
Definition world_after {W : Type} (env : ∀ e : ExtOp, W → W * ExtAns e)
    (aenv : ∀ a : AdminOp, W → W * AdminAns a) (ops : list SysOp) (w : W) : W :=
  foldl (λ w o, match o with
                | Core (Ext e) => (env e w).1
                | Core (Mem _) => w
                | Adm a => (aenv a w).1
                end) w ops.

(** What the router and the listener rely on of the disk, said of any
    model of the collaborators.  [Here] holds of the worlds in which the
    directory [name] exists: [os.Mkdir] leads there, every call but
    [os.RemoveAll] of it stays there, and there [os.Stat] finds it. *)
Record MakesDirectory {W : Type} (env : ∀ e : ExtOp, W → W * ExtAns e)
    (aenv : ∀ a : AdminOp, W → W * AdminAns a)
    (name : string) (Here : W → Prop) : Prop := {
  mkdir_here : ∀ perm w, Here (aenv (Mkdir name perm) w).1;
  here_adm : ∀ a w, a ≠ RemoveAll name → Here w → Here (aenv a w).1;
  here_ext : ∀ e w, Here w → Here (env e w).1;
  here_stat : ∀ w, Here w → (env (Stat name) w).2 = None
}.

(** [Gone] holds of the worlds in which the directory [name] does not
    exist: [os.RemoveAll] leads there, every call but [os.Mkdir] of it
    stays there, and there [os.Stat] reports an error. *)
Record RemovesDirectory {W : Type} (env : ∀ e : ExtOp, W → W * ExtAns e)
    (aenv : ∀ a : AdminOp, W → W * AdminAns a)
    (name : string) (Gone : W → Prop) : Prop := {
  remove_gone : ∀ w, Gone (aenv (RemoveAll name) w).1;
  gone_adm : ∀ a w, (∀ perm, a ≠ Mkdir name perm) → Gone w → Gone (aenv a w).1;
  gone_ext : ∀ e w, Gone w → Gone (env e w).1;
  gone_stat : ∀ w, Gone w → is_Some (env (Stat name) w).2
}.

(** ** A reference model of the host, seen from the router

    The reference model of the listener's collaborators, with the
    directories of the disk, the request being served and the containers
    the daemon lists. *)
Module Desk.

Record Request : Type := {
  key : string;          (* the X-API-Key header, empty when absent *)
  pr : string;           (* the form or path value named pr *)
  parses : bool;         (* whether the body is a multipart form *)
  has_binary : bool      (* whether the form has a file named binary *)
}.

Record World : Type := {
  host : Sim.World;
  folders : list string;     (* the directories os.Stat finds *)
  request : Request;
  listed : list Summary      (* the containers, running or not *)
}.

Definition with_host (h : Sim.World) (w : World) : World :=
  {| host := h; folders := folders w; request := request w; listed := listed w |}.

Definition with_folders (fs : list string) (w : World) : World :=
  {| host := host w; folders := fs; request := request w; listed := listed w |}.

Definition with_listed (cs : list Summary) (w : World) : World :=
  {| host := host w; folders := folders w; request := request w; listed := cs |}.

Definition add_image (name : string) (h : Sim.World) : Sim.World :=
  {| Sim.bad_handshakes := Sim.bad_handshakes h; Sim.dirs := Sim.dirs h;
     Sim.daemon_up := Sim.daemon_up h; Sim.images := name :: Sim.images h;
     Sim.running := Sim.running h; Sim.next_port := Sim.next_port h;
     Sim.clock := Sim.clock h |}.

(** The image a command line builds, if it is a build. *)
Definition built (args : list string) : option string :=
  match args with
  | ["docker"; "build"; "--build-arg"; _; "-t"; name; "."] => Some name
  | _ => None
  end.

(** A build needs the daemon; every other command is the listener's. *)
Definition exec (args : list string) (w : World) : World * option error :=
  match built args with
  | Some name =>
      if Sim.daemon_up (host w)
      then (with_host (add_image name (host w)) w, None)
      else (w, Some "exit status 1")
  | None =>
      let '(h, err) := Sim.exec args (host w) in (with_host h w, err)
  end.

Definition env (e : ExtOp) (w : World) : World * ExtAns e :=
  match e with
  | Stat name =>
      (w, if Sim.has name (folders w) then None
          else Some "no such file or directory")
  | Exec args => exec args w
  | e => let '(h, a) := Sim.env e (host w) in (with_host h w, a)
  end.

Definition aenv (a : AdminOp) (w : World) : World * AdminAns a :=
  match a with
  | ListAll =>
      (w, if Sim.daemon_up (host w) then (listed w, None)
          else ([], Some "cannot connect to the Docker daemon"))
  | ContainerKill id _ =>
      if Sim.has id (ID <$> listed w)
      then (with_listed (filter (λ c, String.eqb (ID c) id = false) (listed w)) w,
            None)
      else (w, Some "No such container")
  | HeaderGet _ => (w, key (request w))
  | ParseMultipartForm _ =>
      (w, if parses (request w) then None
          else Some "request Content-Type isn't multipart/form-data")
  | FormValue _ => (w, pr (request w))
  | FormFile _ =>
      (w, if has_binary (request w) then None else Some "http: no such file")
  | PathValue _ => (w, pr (request w))
  | HttpError _ _ => (w, tt)
  | WriteHeader _ => (w, tt)
  | Mkdir name _ =>
      if Sim.has name (folders w) then (w, Some "file exists")
      else (with_folders (name :: folders w) w, None)
  | Create _ => (w, None)
  | Seek _ _ => (w, None)
  | Copy => (w, None)
  | CloseFile => (w, None)
  | RemoveAll path =>
      (with_folders (filter (λ d, String.eqb path d = false) (folders w)) w, None)
  | Remove _ => (w, None)
  end.

(** An authorised upload or delete of pull request 7 on a host with
    nothing on it, by a client that sends the key [secret]. *)
Definition seven : World :=
  {| host := Scenario.idle; folders := [];
     request := {| key := "secret"; pr := "7"; parses := true; has_binary := true |};
     listed := [] |}.

(** A host on which three containers are left, two of them of pull
    requests. *)
Definition leftovers : World :=
  {| host := Scenario.idle; folders := [];
     request := {| key := EmptyString; pr := EmptyString; parses := false;
                   has_binary := false |};
     listed := [ {| ID := "a1"; Image := "pr-7" |};
                 {| ID := "b2"; Image := "postgres:16" |};
                 {| ID := "c3"; Image := "pr-42" |} ] |}.

End Desk.

(** A call that, if it looks up a directory, runs a command or stores a
    time, does so under a name made of digits. *)
Definition digits_only (o : Op) : Prop :=
  match o with
  | Ext (Stat name) => ∃ ds, name = "pr-" +:+ ds ∧ Address.all_digits ds = true
  | Ext (Exec args) => ∃ ds, args = Docker.run_args ds ∧ Address.all_digits ds = true
  | Mem (MapStore k _) => Address.all_digits k = true
  | _ => True
  end.

(** [errors.Is(err, os.ErrNotExist)] on the errors of the reference
    model. *)
Definition notExist (e : error) : bool := String.eqb e "no such file or directory".

(** ** Tactics *)

(** A program that is one call satisfies [Always] when the call does. *)
Ltac call_ok := unfold ext, mem; apply always_vis; [|intros; apply always_ret].

(** Walk every path of a program: take each answer apart as far as the
    program looks at it. *)
Ltac all_paths :=
  repeat first
    [ progress cbn
    | match goal with
      | |- ∀ _ : option _, _ => intros [?|]
      | |- ∀ _ : unit, _ => intros []
      | |- ∀ _ : (_ * _)%type, _ => intros [? ?]
      | |- ∀ _ : list _, _ => intros [|? ?]
      | |- ∀ _, _ => intro
      | |- context [Ports ?c] => is_var c; destruct c
      | |- context [match ?x with _ => _ end] => is_var x; destruct x
      | |- context [if ?x then _ else _] => is_var x; destruct x
      | |- context [Listener.redirect _ _] => unfold Listener.redirect
      | |- context [?p =? 0] => destruct (p =? 0) eqn:?
      end ].

(** Walk every path of a request: take each answer apart as far as the
    handler looks at it. *)
Ltac every_path :=
  repeat first
    [ progress cbn
    | match goal with
      | |- ∀ _ : option _, _ => intros [?|]
      | |- ∀ _ : unit, _ => intros []
      | |- ∀ _ : (_ * _)%type, _ => intros [? ?]
      | |- ∀ _, _ => intro
      | |- context [Strconv.Atoi ?s] => destruct (Strconv.Atoi s) eqn:?
      | |- context [String.eqb ?a ?b] => destruct (String.eqb a b) eqn:?
      | |- context [match ?x with _ => _ end] => is_var x; destruct x
      | |- context [if ?x then _ else _] => is_var x; destruct x
      | |- context [if ?f ?x then _ else _] => is_var f; destruct (f x) eqn:?
      end ].

(** * Properties *)

(** ** The address pattern *)

Section AddressFacts.

Import Address.

Lemma span_digits_spec s ds tl :
  span_digits s = (ds, tl) → s = ds +:+ tl ∧ all_digits ds = true.
Proof.
  revert ds tl. induction s as [|c s IH]; intros ds tl; simpl.
  - intros [= <- <-]. done.
  - destruct (is_digit c) eqn:Hc.
    + destruct (span_digits s) as [ds' tl'] eqn:Hs.
      intros [= <- <-]. destruct (IH _ _ eq_refl) as [-> Hd].
      simpl. rewrite Hc, Hd. done.
    + intros [= <- <-]. done.
Qed.

Lemma span_digits_app ds tl :
  all_digits ds = true →
  match tl with EmptyString => True | String c _ => is_digit c = false end →
  span_digits (ds +:+ tl) = (ds, tl).
Proof.
  intros Hd Htl. induction ds as [|c ds IH]; simpl in *.
  - destruct tl as [|c tl]; [done|]. simpl. by rewrite Htl.
  - apply andb_true_iff in Hd as [Hc Hd]. rewrite Hc, (IH Hd). done.
Qed.

(** The executable matcher finds exactly what the pattern describes. *)
Lemma FindStringSubmatch_pattern addr ds :
  pr_pattern addr ds → FindStringSubmatch addr = [addr; ds].
Proof.
  intros (-> & Hne & Hd). unfold FindStringSubmatch.
  rewrite span_digits_app by done.
  rewrite String.eqb_refl.
  destruct (String.eqb_spec ds EmptyString); done.
Qed.

Lemma FindStringSubmatch_inv addr :
  FindStringSubmatch addr = [] ∨
  ∃ ds, FindStringSubmatch addr = [addr; ds] ∧ pr_pattern addr ds.
Proof.
  unfold FindStringSubmatch.
  destruct (span_digits addr) as [ds tl] eqn:Hs.
  apply span_digits_spec in Hs as [-> Hd].
  destruct (String.eqb_spec ds EmptyString) as [|Hne]; simpl; [by left|].
  destruct (String.eqb_spec tl pr_domain) as [->|]; [|by left].
  right. exists ds. done.
Qed.

Lemma unmatched_no_pattern addr :
  FindStringSubmatch addr = [] → ∀ ds, ¬ pr_pattern addr ds.
Proof.
  intros Hno ds Hp. apply FindStringSubmatch_pattern in Hp. congruence.
Qed.

(** An address of the pattern is none of the fixed hostnames. *)
Lemma pattern_not_fixed addr ds :
  pr_pattern addr ds →
  String.eqb addr "df-mc.dev" || String.eqb addr "188.166.78.44" = false
  ∧ String.eqb addr "plots.df-mc.dev" = false.
Proof.
  intros Hp. apply FindStringSubmatch_pattern in Hp.
  assert (Hno : ∀ s, FindStringSubmatch s = [] → String.eqb addr s = false).
  { intros s Hs. destruct (String.eqb_spec addr s) as [->|]; [congruence|done]. }
  split; [apply orb_false_iff; split|]; by apply Hno.
Qed.

Lemma not_fixed_eqb addr :
  addr ∉ fixed_hostnames.*1 →
  String.eqb addr "df-mc.dev" || String.eqb addr "188.166.78.44" = false
  ∧ String.eqb addr "plots.df-mc.dev" = false.
Proof.
  intros Hn. unfold fixed_hostnames in Hn. simpl in Hn.
  rewrite !not_elem_of_cons in Hn. destruct Hn as (H1 & H2 & H3 & _).
  split; [apply orb_false_iff; split|]; by apply String.eqb_neq.
Qed.

Lemma digit_not_colon c : is_digit c = true → Ascii.eqb c ":" = false.
Proof.
  intros Hd. destruct (Ascii.eqb_spec c ":") as [->|]; [|done].
  vm_compute in Hd. discriminate.
Qed.

(** An address of the pattern has no colon: the split leaves it whole. *)
Lemma before_colon_pattern addr ds : pr_pattern addr ds → before_colon addr = addr.
Proof.
  intros (-> & _ & Hd). induction ds as [|c ds IH]; [reflexivity|].
  simpl in Hd. apply andb_true_iff in Hd as [Hc Hd].
  change (String c ds +:+ pr_domain) with (String c (ds +:+ pr_domain)).
  simpl. rewrite (digit_not_colon c Hc). f_equal. by apply IH.
Qed.

End AddressFacts.

(** ** Runs *)

Section RunFacts.

Context {W : Type} (env : ∀ e : ExtOp, W → W * ExtAns e).

Lemma run_bind {A B : Type} (p : Prog A) (f : A → Prog B) m w :
  run env (p ≫= f) m w = and_then (run env p m w) (λ a, run env (f a)).
Proof.
  revert m w. induction p as [a| |o k IH]; intros m w.
  - unfold and_then; simpl. by destruct (run env (f a) m w).
  - done.
  - change (Vis o k ≫= f) with (Vis o (λ x, k x ≫= f)).
    simpl. destruct (perform env o m w) as [[m' w'] a].
    rewrite IH. unfold and_then, observe; simpl.
    by destruct (outcome (run env (k a) m' w')).
Qed.

Lemma and_then_done {A B : Type} (r : Final (W:=W) A)
    (f : A → gmap string Z → W → Final (W:=W) B) a :
  outcome r = Done a →
  let r' := f a (final_map r) (final_world r) in
  calls (and_then r f) = calls r ++ calls r'
  ∧ final_map (and_then r f) = final_map r'
  ∧ outcome (and_then r f) = outcome r'.
Proof.
  intros Ho. unfold and_then, calls. rewrite Ho. cbn [trace final_map outcome].
  by rewrite fmap_app.
Qed.

Lemma and_then_trace {A B : Type} (r : Final (W:=W) A)
    (f : A → gmap string Z → W → Final (W:=W) B) a :
  outcome r = Done a →
  trace (and_then r f) = trace r ++ trace (f a (final_map r) (final_world r)).
Proof. intros Ho. unfold and_then. by rewrite Ho. Qed.

Lemma run_sweep_cons k ks m w :
  run env (Listener.sweep (k :: ks)) m w
  = and_then (run env (Listener.sweep_entry k) m w)
      (λ _, run env (Listener.sweep ks)).
Proof.
  change (Listener.sweep (k :: ks))
    with (Listener.sweep_entry k;; Listener.sweep ks).
  apply run_bind.
Qed.

Lemma run_tick m w :
  run env Listener.tick m w
  = observe (existT (Mem MapKeys) (map_to_list m).*1)
      (run env (Listener.sweep (map_to_list m).*1) m w).
Proof. reflexivity. Qed.

End RunFacts.

Lemma Listen_cons c cs :
  Listener.Listen (c :: cs) = (Listener.handleConnection c;; Listener.Listen cs).
Proof. reflexivity. Qed.

Lemma readings_app tr1 tr2 : readings (tr1 ++ tr2) = readings tr1 ++ readings tr2.
Proof. apply omap_app. Qed.

(** ** What a handler can call *)

Lemma always_bind ok {A B : Type} (p : Prog A) (f : A → Prog B) :
  Always ok p → (∀ a, Always ok (f a)) → Always ok (p ≫= f).
Proof.
  intros Hp Hf. induction Hp as [a| |o k Ho Hk IH].
  - apply Hf.
  - constructor.
  - change (Vis o k ≫= f) with (Vis o (λ x, k x ≫= f)).
    constructor; [done|]. intros a. apply IH.
Qed.

Lemma always_impl (ok ok' : Op → Prop) {A : Type} (p : Prog A) :
  (∀ o, ok o → ok' o) → Always ok p → Always ok' p.
Proof. intros Himp Hp. induction Hp; constructor; auto. Qed.

Lemma always_vis_inv (ok : Op → Prop) {A : Type} o (k : Ans o → Prog A) :
  Always ok (Vis o k) → ok o ∧ ∀ a, Always ok (k a).
Proof.
  intros H.
  change (match Vis o k with
          | Vis o k => ok o ∧ ∀ a, Always ok (k a)
          | _ => True
          end).
  destruct H; auto.
Qed.

Lemma always_run {W : Type} (env : ∀ e : ExtOp, W → W * ExtAns e)
    ok {A : Type} (p : Prog A) m w :
  Always ok p → Forall ok (calls (run env p m w)).
Proof.
  intros Hp. revert m w. induction Hp as [a| |o k Ho Hk IH]; intros m w.
  - constructor.
  - constructor.
  - simpl. destruct (perform env o m w) as [[m' w'] a].
    unfold calls; simpl. constructor; [done|]. apply IH.
Qed.

Section HandlerOps.

Import Listener.

Lemma redirect_ops c p : Always handler_op (redirect c p).
Proof. unfold redirect. destruct (Z.eqb_spec p 0); call_ok; done. Qed.

Lemma touch_ops pr : Always handler_op (touch pr).
Proof.
  apply always_bind; [call_ok; done|]. intros. call_ok; done.
Qed.

Lemma ServerPort_ops pr : Always handler_op (Docker.ServerPort pr).
Proof.
  apply always_bind; [call_ok; done|].
  intros [cs [e|]]; [constructor|].
  destruct cs as [|c0 ?]; [constructor|].
  destruct (Ports c0); constructor.
Qed.

Lemma StartServer_ops pr : Always handler_op (Docker.StartServer pr).
Proof.
  apply always_bind; [call_ok; by exists pr|].
  intros [e|]; [constructor|].
  apply always_bind; [apply ServerPort_ops|].
  intros [[p f] [e|]]; [constructor|]. destruct f; constructor.
Qed.

Lemma handleConnection_ops c : Always handler_op (handleConnection c).
Proof.
  unfold handleConnection.
  apply always_bind; [call_ok; done|].
  intros [e|]; [call_ok; done|].
  destruct (_ || _); [apply redirect_ops|].
  destruct (String.eqb _ _); [apply redirect_ops|].
  destruct (Address.FindStringSubmatch _) as [|? [|pr ?]]; try (call_ok; done).
  apply always_bind; [call_ok; done|].
  intros [e|]; [call_ok; done|].
  apply always_bind; [apply ServerPort_ops|].
  intros [[p f] [e|]]; [call_ok; done|].
  assert (Hfin : ∀ q, Always handler_op (touch pr;; redirect c q)).
  { intros q. apply always_bind; [apply touch_ops|].
    intros. apply redirect_ops. }
  destruct f; cbn [negb]; [apply Hfin|].
  apply always_bind; [apply StartServer_ops|].
  intros [[p' f'] [e|]]; [call_ok; done|].
  destruct f'; cbn [negb]; [apply Hfin|call_ok; done].
Qed.

Lemma Listen_ops cs : Always handler_op (Listen cs).
Proof.
  induction cs as [|c cs IH]; [constructor|].
  rewrite Listen_cons. apply always_bind; [apply handleConnection_ops|]. done.
Qed.

End HandlerOps.

(** ** Redirects *)

Section Redirects.

Context {W : Type} (env : ∀ e : ExtOp, W → W * ExtAns e).

Import Listener.

(** C9.  Whatever addresses the clients asked for and whatever the
    collaborators answer, every transfer packet the listener writes names
    the host ["df-mc.dev"]; only the port differs from one to the next. *)
Theorem redirect_host_is_constant (accepted : list Conn) m w :
  Forall (λ o, ∀ c pk, o = Ext (WritePacket c pk) → Address pk = "df-mc.dev")
    (calls (run env (Listen accepted) m w)).
Proof.
  eapply Forall_impl; [apply always_run, Listen_ops|].
  intros o Ho c pk ->. by destruct Ho.
Qed.

(** C10.  No transfer packet carries port 0: once the routing branches are
    through, a target port of 0 leads to a disconnect in place of the
    transfer, so every transfer the listener writes has a port other than
    0. *)
Theorem redirect_port_is_not_zero (accepted : list Conn) m w :
  Forall (λ o, ∀ c pk, o = Ext (WritePacket c pk) → Port pk ≠ 0)
    (calls (run env (Listen accepted) m w))
  ∧ ∀ c, calls (run env (redirect c 0) m w)
         = [Ext (Disconnect c "<red>Failed to determine target port</red>")].
Proof.
  split.
  - eapply Forall_impl; [apply always_run, Listen_ops|].
    intros o Ho c pk ->. by destruct Ho.
  - intros c. unfold redirect, calls. simpl.
    by destruct (env (Disconnect c _) w).
Qed.

End Redirects.

(** ** One connection *)

Section Handler.

Context {W : Type} (env : ∀ e : ExtOp, W → W * ExtAns e).

Import Address Listener.

(** C3.  When the host part of the requested address is one of the fixed
    hostnames, a client whose handshake succeeds is sent to the port that
    goes with that hostname, and the run consists of the handshake and the
    transfer alone.  Whether or not the handshake succeeds, the run looks up
    no directory, calls the Docker daemon not at all and leaves
    [lastConnections] as it was; the outcome does not depend on the map or
    on the state of the world beyond the handshake. *)
Theorem fixed_hostname_redirect m w c host port :
  (host, port) ∈ fixed_hostnames →
  before_colon (ServerAddress c) = host →
  let r := run env (handleConnection c) m w in
  ((env (StartGame c) w).2 = None →
     calls r = [Ext (StartGame c); transfer_to port c])
  ∧ Forall (λ o, is_registry_call o = false ∧ is_tracker_call o = false) (calls r)
  ∧ final_map r = m.
Proof.
  intros Hin Haddr r. subst r. unfold handleConnection, transfer_to.
  simpl. destruct (env (StartGame c) w) as [w1 [e|]]; cbn [fst snd].
  - simpl. destruct (env _ w1) as [w2 []]. unfold calls; simpl.
    split; [done|split; [repeat constructor|done]].
  - rewrite Haddr. unfold fixed_hostnames in Hin.
    rewrite !elem_of_cons, elem_of_nil in Hin.
    destruct Hin as [[= -> ->]|[[= -> ->]|[[= -> ->]|[]]]].
    all: simpl; destruct (env _ w1) as [w2 []]; unfold calls; simpl.
    all: split; [done|split; [repeat constructor|done]].
Qed.

(** C4.  For an address made of one or more digits followed by
    [.df-mc.dev], the submatch the handler takes as the pull request is the
    digit sequence itself, character for character (so ["007.df-mc.dev"]
    gives ["007"]); the address has no colon, so the split leaves it
    whole; and it is under that identifier, unchanged, that the handler
    looks for the directory ["pr-" ++ digits]. *)
Theorem identifier_is_captured_digits addr digits :
  pr_pattern addr digits →
  FindStringSubmatch addr = [addr; digits]
  ∧ before_colon addr = addr
  ∧ ∀ m w c,
      before_colon (ServerAddress c) = addr →
      (env (StartGame c) w).2 = None →
      take 2 (calls (run env (handleConnection c) m w))
      = [Ext (StartGame c); Ext (Stat ("pr-" +:+ digits))].
Proof.
  intros Hpat. split; [by apply FindStringSubmatch_pattern|].
  split; [by eapply before_colon_pattern|].
  intros m w c Haddr Hgame. unfold handleConnection. rewrite Haddr.
  destruct (pattern_not_fixed _ _ Hpat) as [-> ->].
  rewrite (FindStringSubmatch_pattern _ _ Hpat).
  simpl. destruct (env (StartGame c) w) as [w1 a1]; simpl in *. subst a1.
  simpl. destruct (env (Stat _) w1) as [w2 a2]. unfold calls. simpl.
  done.
Qed.

(** C5.  When the host part of the requested address is none of the fixed
    hostnames and is not digits followed by [.df-mc.dev], a client whose
    handshake succeeds is disconnected with the message for an invalid
    server address.  Whether or not the handshake succeeds, the run looks up
    no directory, calls the Docker daemon not at all, writes no transfer
    and leaves [lastConnections] as it was. *)
Theorem invalid_address_rejected m w c :
  let addr := before_colon (ServerAddress c) in
  addr ∉ fixed_hostnames.*1 →
  (∀ ds, ¬ pr_pattern addr ds) →
  let r := run env (handleConnection c) m w in
  ((env (StartGame c) w).2 = None →
     calls r = [Ext (StartGame c);
                Ext (Disconnect c
                       ("<red>Invalid server address: " +:+ addr +:+ "</red>"))])
  ∧ Forall (λ o, is_registry_call o = false ∧ is_tracker_call o = false
                 ∧ is_redirect o = false) (calls r)
  ∧ final_map r = m.
Proof.
  intros addr Hfix Hpat r. subst r. unfold handleConnection.
  fold addr. destruct (not_fixed_eqb addr Hfix) as [-> ->].
  destruct (FindStringSubmatch_inv addr) as [->|(ds & _ & Hds)];
    [|by destruct (Hpat ds)].
  simpl. destruct (env (StartGame c) w) as [w1 [e|]]; simpl;
    destruct (env _ w1) as [w2 []]; unfold calls; simpl;
    (split; [done|split; [repeat constructor|done]]).
Qed.

(** C6.  When the address names pull request [pr], the handshake succeeds
    and [os.Stat] finds no directory ["pr-" ++ pr], the client is
    disconnected as asking for an invalid or outdated pull request: the run
    is the handshake, the look-up and the disconnect, with no call on the
    Docker daemon (no port query, no start), no transfer, and
    [lastConnections] as it was. *)
Theorem unprovisioned_rejected m w c pr e :
  pr_pattern (before_colon (ServerAddress c)) pr →
  (env (StartGame c) w).2 = None →
  (env (Stat ("pr-" +:+ pr)) (env (StartGame c) w).1).2 = Some e →
  let r := run env (handleConnection c) m w in
  calls r = [Ext (StartGame c); Ext (Stat ("pr-" +:+ pr));
             Ext (Disconnect c "<red>Invalid or outdated pull request</red>")]
  ∧ Forall (λ o, is_driver_call o = false ∧ is_tracker_call o = false
                 ∧ is_redirect o = false) (calls r)
  ∧ final_map r = m.
Proof.
  intros Hpat Hgame Hstat r. subst r. unfold handleConnection.
  destruct (pattern_not_fixed _ _ Hpat) as [-> ->].
  rewrite (FindStringSubmatch_pattern _ _ Hpat).
  simpl. destruct (env (StartGame c) w) as [w1 a1]; simpl in *. subst a1.
  simpl. destruct (env (Stat _) w1) as [w2 a2]; simpl in *. subst a2.
  simpl. destruct (env _ w2) as [w3 []]. unfold calls; simpl.
  split; [done|split; [repeat constructor|done]].
Qed.

End Handler.

(** ** The sweep of idle servers *)

Lemma kill_args_inj pr pr' : Docker.kill_args pr = Docker.kill_args pr' → pr = pr'.
Proof. unfold Docker.kill_args. intros [= H]. done. Qed.

Lemma stop_of_inj pr pr' : stop_of pr = stop_of pr' → pr = pr'.
Proof. unfold stop_of. intros H. apply kill_args_inj. congruence. Qed.

Section Sweep.

Context {W : Type} (env : ∀ e : ExtOp, W → W * ExtAns e).

Import Listener.

(** What one entry of the range does, case by case. *)
Lemma sweep_entry_run pr m w :
  let r := run env (sweep_entry pr) m w in
  outcome r = Done tt ∧
  match m !! pr with
  | None => trace r = [existT (Mem (MapLoad pr)) None] ∧ final_map r = m
  | Some lastConn =>
      let now := (env Now w).2 in
      if Time.Hour <? Time.Sub now lastConn
      then ∃ a,
           trace r = [existT (Mem (MapLoad pr)) (Some lastConn);
                      existT (Ext Now) now;
                      existT (Ext (Exec (Docker.kill_args pr))) a;
                      existT (Mem (MapDelete pr)) tt]
           ∧ final_map r = delete pr m
      else trace r = [existT (Mem (MapLoad pr)) (Some lastConn);
                      existT (Ext Now) now]
           ∧ final_map r = m
  end.
Proof.
  unfold sweep_entry. simpl. destruct (m !! pr) as [lastConn|]; simpl; [|done].
  destruct (env Now w) as [w1 now]; simpl.
  destruct (Time.Hour <? Time.Sub now lastConn); simpl; [|done].
  destruct (env (Exec _) w1) as [w2 a]; simpl. eauto.
Qed.

(** An entry either stops nothing and keeps the map, or stops its own pull
    request, and no other, and deletes it. *)
Lemma sweep_entry_cases k m w :
  let r := run env (sweep_entry k) m w in
  outcome r = Done tt ∧
  ((∀ pr, stop_of pr ∉ calls r) ∧ final_map r = m
   ∨ (∀ pr, stop_of pr ∈ calls r ↔ pr = k) ∧ final_map r = delete k m).
Proof.
  intros r. destruct (sweep_entry_run k m w) as [Ho Hr]. fold r in Ho, Hr.
  split; [done|]. unfold calls.
  destruct (m !! k) as [lastConn|].
  - cbv zeta in Hr.
    destruct (Time.Hour <? Time.Sub (env Now w).2 lastConn).
    + right. destruct Hr as (a & -> & ->). split; [|done].
      intros pr. simpl. rewrite !elem_of_cons, elem_of_nil. split.
      * intros [[=]|[[=]|[H|[[=]|[]]]]]. symmetry. by apply stop_of_inj.
      * intros ->. auto.
    + left. destruct Hr as [-> ->]. split; [|done].
      intros pr. simpl. rewrite !elem_of_cons, elem_of_nil.
      intros [[=]|[[=]|[]]].
  - left. destruct Hr as [-> ->]. split; [|done].
    intros pr. simpl. rewrite !elem_of_cons, elem_of_nil. intros [[=]|[]].
Qed.

Lemma sweep_stop_forgets ks m w pr :
  let r := run env (sweep ks) m w in
  (stop_of pr ∈ calls r → final_map r !! pr = None)
  ∧ (stop_of pr ∉ calls r → final_map r !! pr = m !! pr).
Proof.
  revert m w. induction ks as [|k ks IH]; intros m w r; subst r.
  - change (sweep []) with (@Ret unit tt). unfold calls; simpl.
    split; [by intros ?%elem_of_nil|done].
  - rewrite run_sweep_cons.
    destruct (sweep_entry_cases k m w) as [Ho Hc].
    set (r1 := run env (sweep_entry k) m w) in *.
    destruct (and_then_done r1 (λ _, run env (sweep ks)) tt Ho) as (-> & -> & _).
    specialize (IH (final_map r1) (final_world r1)). cbv zeta in IH.
    destruct IH as [IHin IHout].
    set (r2 := run env (sweep ks) (final_map r1) (final_world r1)) in *.
    rewrite elem_of_app.
    destruct Hc as [[Hno Hm]|[Hyes Hm]]; rewrite Hm in *.
    + split.
      * intros [H|H]; [by destruct (Hno pr)|auto].
      * intros H. apply IHout. tauto.
    + destruct (decide (pr = k)) as [->|Hne].
      * split.
        -- intros _. destruct (decide (stop_of k ∈ calls r2)) as [H|H]; [auto|].
           rewrite (IHout H). apply lookup_delete_eq.
        -- intros H. destruct H. left. by apply Hyes.
      * split.
        -- intros [H|H]; [by apply Hyes in H|auto].
           -- intros H. rewrite IHout by tauto. by apply lookup_delete_ne.
Qed.

(** C7, as the code has it.  On a tick, a pull request whose stop is
    attempted is deleted from [lastConnections] whatever the stop command
    returns: [StopServer] discards the error and returns nothing, and the
    delete follows it unconditionally.  A pull request whose stop is not
    attempted keeps its entry.  So a failed stop is not tried again on the
    next tick; the entry it would be found by is gone. *)
Theorem stop_then_forget m w pr :
  let r := run env tick m w in
  final_map r !! pr = if decide (stop_of pr ∈ calls r) then None else m !! pr.
Proof.
  intros r. subst r. rewrite run_tick.
  destruct (sweep_stop_forgets (map_to_list m).*1 m w pr) as [Hin Hout].
  unfold calls in *; simpl. case_decide as Hd.
  - apply elem_of_cons in Hd as [[=]|Hd]. auto.
  - apply Hout. intros H'. apply Hd. by right.
Qed.

Lemma sweep_keeps_fresh ks m w pr last :
  m !! pr = Some last →
  let r := run env (sweep ks) m w in
  Forall (λ now, Time.Sub now last ≤ Time.Hour) (readings (trace r)) →
  (stop_of pr ∉ calls r) ∧ final_map r !! pr = Some last.
Proof.
  revert m w. induction ks as [|k ks IH]; intros m w Hm r; subst r.
  - change (sweep []) with (@Ret unit tt). unfold calls; simpl.
    intros _. split; [by intros ?%elem_of_nil|done].
  - rewrite run_sweep_cons.
    destruct (sweep_entry_cases k m w) as [Ho Hc].
    pose proof (sweep_entry_run k m w) as [_ Hr].
    set (r1 := run env (sweep_entry k) m w) in *.
    rewrite (and_then_trace r1 _ tt Ho).
    destruct (and_then_done r1 (λ _, run env (sweep ks)) tt Ho) as (-> & -> & _).
    rewrite readings_app, Forall_app. intros [Hr1 Hr2].
    assert (Hkeep : (stop_of pr ∉ calls r1) ∧ final_map r1 !! pr = Some last).
    { destruct (decide (pr = k)) as [->|Hne].
      - rewrite Hm in Hr. cbv zeta in Hr.
        destruct (Time.Hour <? Time.Sub (env Now w).2 last) eqn:Hstale.
        + destruct Hr as (a & Htr & _). rewrite Htr in Hr1.
          apply Forall_cons in Hr1 as [Hr1 _]. apply Z.ltb_lt in Hstale. lia.
        + destruct Hr as [Htr ->]. split; [|done].
          unfold calls. rewrite Htr. simpl.
          rewrite !elem_of_cons, elem_of_nil. intros [[=]|[[=]|[]]].
      - destruct Hc as [[Hno ->]|[Hyes ->]].
        + done.
        + split; [intros H; by apply Hyes in H|]. by rewrite lookup_delete_ne. }
    destruct Hkeep as [Hnot Hlook].
    destruct (IH (final_map r1) (final_world r1) Hlook Hr2) as [IH1 IH2].
    split; [|done]. rewrite elem_of_app. tauto.
Qed.

Lemma touch_run pr m w :
  let r := run env (touch pr) m w in
  calls r = [Ext Now; Mem (MapStore pr (env Now w).2)]
  ∧ final_map r = <[pr := (env Now w).2]> m.
Proof. unfold touch, calls. simpl. by destruct (env Now w). Qed.

End Sweep.

(** ** The times stored *)

Lemma touch_times_app pr l1 l2 :
  touch_times pr (l1 ++ l2) = touch_times pr l1 ++ touch_times pr l2.
Proof. apply omap_app. Qed.

(** ** Connections handled in turn *)

Lemma starts_app pr l1 l2 : starts pr (l1 ++ l2) = (starts pr l1 + starts pr l2)%nat.
Proof. unfold starts. by rewrite filter_app, length_app. Qed.

Lemma redirects_app l1 l2 : redirects (l1 ++ l2) = redirects l1 ++ redirects l2.
Proof. apply filter_app. Qed.

Section InTurn.

Context {W : Type} (env : ∀ e : ExtOp, W → W * ExtAns e).
Context (pr : string) (port : Z) (Idle Up : W → Prop).
Context (driver : StartsOnDemand env pr port Idle Up).
Context (Hne : pr ≠ EmptyString) (Hd : Address.all_digits pr = true).
Context (Hport : port ≠ 0).

Import Address Listener.

(** A call that is not on the daemon: destruct its answer, keep [Idle] or
    [Up] of the new world. *)
Ltac quiet_step e w Hw :=
  let Hq := fresh "Hq" in
  first [ pose proof (quiet_idle _ _ _ _ _ driver e w eq_refl Hw) as Hq
        | pose proof (quiet_up _ _ _ _ _ driver e w eq_refl Hw) as Hq ];
  destruct (env e w) as [? ?]; cbn [fst snd] in *.

(** The port query in a world where the server is up. *)
Ltac query_up w Hw :=
  let Hq := fresh "Hq" in
  let a := fresh "a" in
  destruct (up_query _ _ _ _ _ driver w Hw)
    as [(c0 & cs & p0 & ps & Hans & Hports & Hpub) Hq];
  destruct (env (ContainerList ("pr=" +:+ pr)) w) as [? a];
  cbn [fst snd] in *; subst a; simpl; rewrite Hports, Hpub; simpl.

(** The touch and the transfer that end a successful handler. *)
Ltac finish_redirect c w Hw :=
  quiet_step Now w Hw; simpl;
  unfold redirect; rewrite (proj2 (Z.eqb_neq _ _) Hport); simpl;
  match goal with
  | |- context [env (WritePacket c ?pk) ?w'] =>
      match goal with
      | H : Up w' |- _ => quiet_step (WritePacket c pk) w' H
      end
  end; simpl;
  match goal with |- Done ?x = _ ∧ _ => destruct x end.

Ltac count_starts :=
  unfold starts;
  repeat first [ rewrite filter_cons_True by reflexivity
               | rewrite filter_cons_False
                   by (unfold start_of, transfer_to; congruence) ];
  reflexivity.

(** A connection that finds the server up starts nothing. *)
Lemma up_handler c m w :
  before_colon (ServerAddress c) = pr +:+ pr_domain →
  Up w →
  let r := run env (handleConnection c) m w in
  outcome r = Done tt
  ∧ starts pr (calls r) = 0%nat
  ∧ redirects (calls r) = [transfer_to port c]
  ∧ Up (final_world r).
Proof.
  intros Haddr Hw r. subst r.
  assert (Hpat : pr_pattern (before_colon (ServerAddress c)) pr) by done.
  unfold handleConnection.
  destruct (pattern_not_fixed _ _ Hpat) as [-> ->].
  rewrite (FindStringSubmatch_pattern _ _ Hpat).
  unfold calls. simpl.
  pose proof (handshake_ok _ _ _ _ _ driver c w (or_intror Hw)) as Ha.
  quiet_step (StartGame c) w Hw. subst. simpl.
  pose proof (artifact_found _ _ _ _ _ driver _ (or_intror Hq)) as Hs.
  quiet_step (Stat ("pr-" +:+ pr)) w0 Hq. subst. simpl.
  query_up w1 Hq0.
  finish_redirect c w2 Hq1.
  split; [done|]. split; [count_starts|]. split; [reflexivity|done].
Qed.

(** A connection that finds nothing running starts the server, once. *)
Lemma idle_handler c m w :
  before_colon (ServerAddress c) = pr +:+ pr_domain →
  Idle w →
  let r := run env (handleConnection c) m w in
  outcome r = Done tt
  ∧ starts pr (calls r) = 1%nat
  ∧ redirects (calls r) = [transfer_to port c]
  ∧ Up (final_world r).
Proof.
  intros Haddr Hw r. subst r.
  assert (Hpat : pr_pattern (before_colon (ServerAddress c)) pr) by done.
  unfold handleConnection.
  destruct (pattern_not_fixed _ _ Hpat) as [-> ->].
  rewrite (FindStringSubmatch_pattern _ _ Hpat).
  unfold calls. simpl.
  pose proof (handshake_ok _ _ _ _ _ driver c w (or_introl Hw)) as Ha.
  quiet_step (StartGame c) w Hw. subst. simpl.
  pose proof (artifact_found _ _ _ _ _ driver _ (or_introl Hq)) as Hs.
  quiet_step (Stat ("pr-" +:+ pr)) w0 Hq. subst. simpl.
  destruct (idle_query _ _ _ _ _ driver w1 Hq0) as [Hans Hq1].
  destruct (env (ContainerList ("pr=" +:+ pr)) w1) as [w2 a2].
  cbn [fst snd] in *. subst a2. simpl.
  destruct (idle_start _ _ _ _ _ driver w2 Hq1) as [Hans Hq2].
  destruct (env (Exec (Docker.run_args pr)) w2) as [w3 a3].
  cbn [fst snd] in *. subst a3. simpl.
  query_up w3 Hq2.
  finish_redirect c w4 Hq3.
  split; [done|]. split; [count_starts|]. split; [reflexivity|done].
Qed.

Lemma up_listen accepted m w :
  Forall (λ c, before_colon (ServerAddress c) = pr +:+ pr_domain) accepted →
  Up w →
  let r := run env (Listen accepted) m w in
  starts pr (calls r) = 0%nat
  ∧ redirects (calls r) = transfer_to port <$> accepted.
Proof.
  revert m w. induction accepted as [|c cs IH]; intros m w Hall Hw r; subst r.
  - done.
  - apply Forall_cons in Hall as [Hc Hcs].
    rewrite Listen_cons, run_bind.
    destruct (up_handler c m w Hc Hw) as (Ho & Hstarts & Hred & Hw').
    destruct (and_then_done _ (λ _, run env (Listen cs)) tt Ho) as (-> & _ & _).
    rewrite starts_app, redirects_app, Hstarts, Hred.
    destruct (IH (final_map (run env (handleConnection c) m w)) _ Hcs Hw')
      as [-> ->].
    done.
Qed.


End InTurn.

(** ** The scenarios, run *)

Section Runs.

Import Address Listener Scenario.

(** A first connection to a pull request starts its server and is sent to
    the published port. *)
Example first_connection :
  calls (run Sim.env (handleConnection (client 0 "42.df-mc.dev:19132")) ∅ idle)
  = [Ext (StartGame (client 0 "42.df-mc.dev:19132"));
     Ext (Stat "pr-42");
     Ext (ContainerList "pr=42");
     start_of "42";
     Ext (ContainerList "pr=42");
     Ext Now;
     Mem (MapStore "42" (2 * Time.Hour));
     transfer_to 32768 (client 0 "42.df-mc.dev:19132")].
Proof. vm_compute. reflexivity. Qed.

(** A container that publishes no port is recorded as connected to, and
    the client is then turned away by the guard on port 0. *)
Example portless_container :
  let r := run Sim.env (handleConnection alice) ∅ portless in
  last (calls r)
  = Some (Ext (Disconnect alice "<red>Failed to determine target port</red>"))
  ∧ redirects (calls r) = []
  ∧ final_map r !! "42" = Some (2 * Time.Hour).
Proof. vm_compute. done. Qed.

(** C7, as stated, fails.  With the Docker daemon out of reach the stop of
    pull request 42 returns an error and its container keeps running, yet
    the tick deletes the entry: the next tick has nothing left to retry. *)
Lemma failed_stop_is_forgotten :
  stop_results "42" (trace failed_sweep) = [Some "exit status 1"]
  ∧ Sim.r_name <$> Sim.running (final_world failed_sweep) = ["pr-42"]
  ∧ final_map failed_sweep !! "42" = None
  ∧ calls (run Sim.env tick (final_map failed_sweep) (final_world failed_sweep))
    = [Mem MapKeys].
Proof. vm_compute. done. Qed.

End Runs.

(** ** The theorems at concrete inputs *)

Section Witnesses.

Import Address Listener Scenario.

(** C3 at the plots server: the address [plots.df-mc.dev:19132] goes to
    port 19134. *)
Lemma fixed_hostname_redirect_witness :
  let c := client 2 "plots.df-mc.dev:19132" in
  ("plots.df-mc.dev", 19134) ∈ fixed_hostnames
  ∧ before_colon (ServerAddress c) = "plots.df-mc.dev"
  ∧ (Sim.env (StartGame c) idle).2 = None
  ∧ calls (run Sim.env (handleConnection c) ∅ idle)
    = [Ext (StartGame c); transfer_to 19134 c].
Proof.
  intros c.
  assert (Hin : ("plots.df-mc.dev", 19134) ∈ fixed_hostnames)
    by repeat constructor.
  assert (Haddr : before_colon (ServerAddress c) = "plots.df-mc.dev")
    by reflexivity.
  assert (Hgame : (Sim.env (StartGame c) idle).2 = None) by reflexivity.
  refine (conj Hin (conj Haddr (conj Hgame _))).
  exact (proj1 (fixed_hostname_redirect Sim.env ∅ idle c _ _ Hin Haddr) Hgame).
Defined.

(** C4 at ["007.df-mc.dev"]: the identifier is ["007"], zeros included. *)
Lemma identifier_is_captured_digits_witness :
  pr_pattern "007.df-mc.dev" "007"
  ∧ FindStringSubmatch "007.df-mc.dev" = ["007.df-mc.dev"; "007"]
  ∧ take 2 (calls (run Sim.env (handleConnection (client 0 "007.df-mc.dev")) ∅ idle))
    = [Ext (StartGame (client 0 "007.df-mc.dev")); Ext (Stat "pr-007")].
Proof.
  assert (Hpat : pr_pattern "007.df-mc.dev" "007").
  { split; [reflexivity|split; [discriminate|reflexivity]]. }
  destruct (identifier_is_captured_digits Sim.env _ _ Hpat) as (Hfind & _ & Hrun).
  refine (conj Hpat (conj Hfind _)).
  apply Hrun; reflexivity.
Defined.

(** C5 at [example.com]. *)
Lemma invalid_address_rejected_witness :
  let c := client 3 "example.com" in
  (before_colon (ServerAddress c) ∉ fixed_hostnames.*1)
  ∧ (∀ ds, ¬ pr_pattern (before_colon (ServerAddress c)) ds)
  ∧ calls (run Sim.env (handleConnection c) ∅ idle)
    = [Ext (StartGame c);
       Ext (Disconnect c "<red>Invalid server address: example.com</red>")].
Proof.
  intros c.
  assert (Hfix : before_colon (ServerAddress c) ∉ fixed_hostnames.*1).
  { intros H. repeat (apply elem_of_cons in H as [H|H]; [discriminate|]).
    by apply elem_of_nil in H. }
  assert (Hpat : ∀ ds, ¬ pr_pattern (before_colon (ServerAddress c)) ds)
    by (apply unmatched_no_pattern; reflexivity).
  refine (conj Hfix (conj Hpat _)).
  apply (proj1 (invalid_address_rejected Sim.env ∅ idle c Hfix Hpat)).
  reflexivity.
Defined.

(** C6 at pull request 7, of which the world [idle] has no directory. *)
Lemma unprovisioned_rejected_witness :
  let c := client 4 "7.df-mc.dev" in
  pr_pattern (before_colon (ServerAddress c)) "7"
  ∧ (Sim.env (StartGame c) idle).2 = None
  ∧ (Sim.env (Stat "pr-7") (Sim.env (StartGame c) idle).1).2
    = Some "no such file or directory"
  ∧ calls (run Sim.env (handleConnection c) ∅ idle)
    = [Ext (StartGame c); Ext (Stat "pr-7");
       Ext (Disconnect c "<red>Invalid or outdated pull request</red>")].
Proof.
  intros c.
  assert (Hpat : pr_pattern (before_colon (ServerAddress c)) "7").
  { split; [reflexivity|split; [discriminate|reflexivity]]. }
  assert (Hgame : (Sim.env (StartGame c) idle).2 = None) by reflexivity.
  assert (Hstat : (Sim.env (Stat ("pr-" +:+ "7")) (Sim.env (StartGame c) idle).1).2
                  = Some "no such file or directory") by reflexivity.
  refine (conj Hpat (conj Hgame (conj Hstat _))).
  exact (proj1 (unprovisioned_rejected Sim.env ∅ idle c "7" _ Hpat Hgame Hstat)).
Defined.

(** The reference model starts the server of pull request 42 on demand,
    from the world [idle] to the world [up]. *)
Lemma reference_model_starts_42 :
  StartsOnDemand Sim.env "42" 32768 (eq idle) (eq up).
Proof.
  split.
  - intros e w He <-. destruct e; try discriminate; reflexivity.
  - intros e w He <-. destruct e; try discriminate; reflexivity.
  - intros c w [<-|<-]; reflexivity.
  - intros w [<-|<-]; reflexivity.
  - intros w <-. split; reflexivity.
  - intros w <-. split; reflexivity.
  - intros w <-. split; [|reflexivity].
    eexists _, _, _, _. repeat split; reflexivity.
Defined.


End Witnesses.

(** * More of the listener and of the Docker wrapper *)

(** ** Every path of a handler *)

Lemma allruns_run {W : Type} (env : ∀ e : ExtOp, W → W * ExtAns e)
    {A : Type} (p : Prog A) Q m w :
  AllRuns p Q → Q (trace (run env p m w)) (outcome (run env p m w)).
Proof.
  revert Q m w. induction p as [a| |o k IH]; intros Q m w H; simpl in *; try done.
  destruct (perform env o m w) as [[m' w'] a]. simpl.
  apply (IH a (λ tr out, Q (existT o a :: tr) out)). apply H.
Qed.

(** The map at the end of a run is the map operations of the run, replayed. *)
Lemma run_replay {W : Type} (env : ∀ e : ExtOp, W → W * ExtAns e)
    {A : Type} (p : Prog A) m w :
  final_map (run env p m w) = replay (calls (run env p m w)) m.
Proof.
  revert m w. induction p as [a| |o k IH]; intros m w; try done.
  simpl. destruct (perform env o m w) as [[m' w'] a] eqn:Hp.
  unfold calls, replay in *. simpl. rewrite IH.
  destruct o as [e|mo]; simpl in *.
  - destruct (env e w). by injection Hp as <- _ _.
  - destruct (perform_mem mo m) as [m1 a1] eqn:Hm. injection Hp as <- _ _. done.
Qed.

Lemma replay_app ops1 ops2 m : replay (ops1 ++ ops2) m = replay ops2 (replay ops1 m).
Proof. unfold replay, mem_ops. by rewrite omap_app, foldl_app. Qed.

Lemma replay_store_ok ops m k :
  Forall store_ok ops →
  (is_Some (m !! k) → is_Some (replay ops m !! k))
  ∧ (is_Some (replay ops m !! k) →
     is_Some (m !! k) ∨ (k ≠ EmptyString ∧ Address.all_digits k = true)).
Proof.
  intros Hok. revert m. induction Hok as [|o ops Ho Hops IH]; intros m.
  { split; [done|]. by left. }
  change (o :: ops) with ([o] ++ ops). rewrite replay_app.
  destruct (IH (replay [o] m)) as [IH1 IH2].
  assert (Hone : (is_Some (m !! k) → is_Some (replay [o] m !! k))
                 ∧ (is_Some (replay [o] m !! k) →
                    is_Some (m !! k)
                    ∨ (k ≠ EmptyString ∧ Address.all_digits k = true))).
  { destruct o as [e|[p t|p|p|]]; cbn in *; try done; try (split; [done|by left]).
    destruct (decide (p = k)) as [->|Hne].
    - rewrite lookup_insert_eq. split; [done|]. intros _. by right.
    - rewrite lookup_insert_ne by done. split; [done|]. by left. }
  destruct Hone as [H1 H2]. split; [auto|].
  intros H. destruct (IH2 H) as [H'|H']; [auto|by right].
Qed.

Section HandlerPaths.

Context {W : Type} (env : ∀ e : ExtOp, W → W * ExtAns e).

Import Address Listener.

(** Split a handler by the shape of the address it was given. *)
Ltac by_address c :=
  unfold handleConnection;
  let addr := constr:(before_colon (ServerAddress c)) in
  destruct (String.eqb addr "df-mc.dev" || String.eqb addr "188.166.78.44") eqn:Hmain;
  [|destruct (String.eqb addr "plots.df-mc.dev") eqn:Hplots;
    [|destruct (FindStringSubmatch_inv addr) as [Hnone|(ds & Hfind & Hpat)];
      [rewrite Hnone|rewrite Hfind]]].

(** X1.  When [StartGame] fails, the client is disconnected with the
    message for a failed start and nothing else happens, whatever address
    it asked for: no look-up, no call on the daemon, no transfer, and
    [lastConnections] is as it was. *)
Theorem failed_handshake_ends_the_connection c m w e :
  (env (StartGame c) w).2 = Some e →
  let r := run env (handleConnection c) m w in
  calls r = [Ext (StartGame c); Ext (Disconnect c "<red>Failed to start game</red>")]
  ∧ final_map r = m.
Proof.
  intros Hgame r. subst r. unfold handleConnection, calls. simpl.
  destruct (env (StartGame c) w) as [w1 a1]. simpl in Hgame. subst a1. simpl.
  by destruct (env _ w1) as [w2 []].
Qed.

(** X2.  A handler that returns has given its client exactly one verdict,
    a disconnect or a transfer, and that verdict is the last call it made;
    a handler that panics has given none. *)
Theorem one_verdict_per_connection c m w :
  let r := run env (handleConnection c) m w in
  match outcome r with
  | Done _ => ∃ v, verdicts (calls r) = [v] ∧ last (calls r) = Some v
  | Panicked => verdicts (calls r) = []
  end.
Proof.
  intros r. subst r.
  apply (allruns_run env (handleConnection c)
           (λ tr out, match out with
                      | Done _ => ∃ v, verdicts (op_of <$> tr) = [v]
                                       ∧ last (op_of <$> tr) = Some v
                      | Panicked => verdicts (op_of <$> tr) = []
                      end)).
  by_address c; all_paths; eauto.
Qed.

(** X3.  Whatever a handler looks up, asks the daemon, runs or records is
    for the pull request named in the address: either the host part is
    digits [ds] followed by [.df-mc.dev] and every such call is the look-up
    of ["pr-" ++ ds], the port query for the label ["pr=" ++ ds], the start
    command of [ds] or a store under [ds] (and the handler deletes
    nothing), or the run has no such call at all. *)
Theorem registry_calls_name_the_pull_request c m w :
  let addr := before_colon (ServerAddress c) in
  let r := run env (handleConnection c) m w in
  (∃ ds, pr_pattern addr ds ∧ Forall (for_pr ds) (calls r))
  ∨ Forall (λ o, is_registry_call o = false ∧ is_tracker_call o = false) (calls r).
Proof.
  intros addr r. subst addr r.
  apply (allruns_run env (handleConnection c)
           (λ tr out,
              (∃ ds, pr_pattern (before_colon (ServerAddress c)) ds
                     ∧ Forall (for_pr ds) (op_of <$> tr))
              ∨ Forall (λ o, is_registry_call o = false ∧ is_tracker_call o = false)
                  (op_of <$> tr))).
  by_address c.
  1,2,3: all_paths; right; repeat constructor.
  all_paths; left; exists ds; (split; [done|]); repeat constructor.
Qed.

(** X4.  A handler asks the daemon for the port at most twice and runs at
    most one command.  When it runs one, that is the start command of the
    pull request in the address, and it comes fourth: after a handshake
    that succeeded, a look-up that found the directory and a port query
    that returned no error and no container. *)
Theorem start_follows_an_empty_query c m w :
  let r := run env (handleConnection c) m w in
  (length (queries (calls r)) ≤ 2)%nat
  ∧ (execs (calls r) = []
     ∨ ∃ ds a rest,
         trace r
         = existT (Ext (StartGame c)) None
           :: existT (Ext (Stat ("pr-" +:+ ds))) None
           :: existT (Ext (ContainerList ("pr=" +:+ ds))) ([], None)
           :: existT (Ext (Exec (Docker.run_args ds))) a :: rest
         ∧ execs (op_of <$> rest) = []).
Proof.
  intros r. subst r. unfold calls.
  apply (allruns_run env (handleConnection c)
           (λ tr out,
              (length (queries (op_of <$> tr)) ≤ 2)%nat
              ∧ (execs (op_of <$> tr) = []
                 ∨ ∃ ds a rest,
                     tr = existT (Ext (StartGame c)) None
                          :: existT (Ext (Stat ("pr-" +:+ ds))) None
                          :: existT (Ext (ContainerList ("pr=" +:+ ds))) ([], None)
                          :: existT (Ext (Exec (Docker.run_args ds))) a :: rest
                     ∧ execs (op_of <$> rest) = []))).
  by_address c; all_paths.
  all: split; [lia|].
  all: first [ by left | right; eexists _, _, _; split; [reflexivity|reflexivity] ].
Qed.

(** X5.  A handler changes [lastConnections] by at most one store: the
    map is as it was, or the pull request of the address has been set to
    the one clock reading the handler took.  And a transfer to anything but
    a fixed hostname's port is always preceded by that store: no client is
    sent to a pull request's server without the connection being
    recorded. *)
Theorem handler_touches_before_it_redirects c m w :
  let addr := before_colon (ServerAddress c) in
  let r := run env (handleConnection c) m w in
  (final_map r = m
   ∨ ∃ ds t, pr_pattern addr ds ∧ readings (trace r) = [t]
             ∧ final_map r = <[ds := t]> m)
  ∧ (addr ∉ fixed_hostnames.*1 → redirects (calls r) ≠ [] →
     ∃ ds t, pr_pattern addr ds ∧ readings (trace r) = [t]
             ∧ final_map r = <[ds := t]> m).
Proof.
  intros addr r. subst addr r. rewrite run_replay. unfold calls.
  apply (allruns_run env (handleConnection c)
           (λ tr out,
              (replay (op_of <$> tr) m = m
               ∨ ∃ ds t, pr_pattern (before_colon (ServerAddress c)) ds
                         ∧ readings tr = [t]
                         ∧ replay (op_of <$> tr) m = <[ds := t]> m)
              ∧ (before_colon (ServerAddress c) ∉ fixed_hostnames.*1 →
                 redirects (op_of <$> tr) ≠ [] →
                 ∃ ds t, pr_pattern (before_colon (ServerAddress c)) ds
                         ∧ readings tr = [t]
                         ∧ replay (op_of <$> tr) m = <[ds := t]> m))).
  by_address c.
  - all_paths; (split; [by left|]); intros Hfix; exfalso; apply Hfix;
      apply orb_true_iff in Hmain as [H|H]; apply String.eqb_eq in H;
      rewrite H; unfold fixed_hostnames; simpl; set_solver.
  - all_paths; (split; [by left|]); intros Hfix; exfalso; apply Hfix;
      apply String.eqb_eq in Hplots;
      rewrite Hplots; unfold fixed_hostnames; simpl; set_solver.
  - all_paths; (split; [by left|]); intros _ Hred; by destruct Hred.
  - all_paths.
    all: first [ split; [by left|intros _ Hred; by destruct Hred]
               | split; [right|intros _ _]; eexists _, _; done ].
Qed.

Lemma handler_store_ok c m w :
  Forall store_ok (calls (run env (handleConnection c) m w)).
Proof.
  unfold calls.
  apply (allruns_run env (handleConnection c)
           (λ tr out, Forall store_ok (op_of <$> tr))).
  by_address c.
  1,2,3: all_paths; repeat constructor.
  destruct Hpat as (_ & Hne & Hd).
  all_paths; repeat constructor; done.
Qed.

Lemma Listen_forall (ok : Op → Prop) :
  (∀ c m w, Forall ok (calls (run env (handleConnection c) m w))) →
  ∀ cs m w, Forall ok (calls (run env (Listen cs) m w)).
Proof.
  intros Hh cs. induction cs as [|c cs IH]; intros m w; [constructor|].
  rewrite Listen_cons, run_bind. unfold and_then, calls.
  destruct (outcome (run env (handleConnection c) m w)) eqn:Ho; cbn [trace].
  - rewrite fmap_app. apply Forall_app. split; [apply Hh|apply IH].
  - apply Hh.
Qed.

(** X6.  Handling connections never removes an entry of
    [lastConnections], and every key it adds is a non-empty string of
    digits: whatever the clients send as their address, the map only ever
    grows by pull-request numbers. *)
Theorem listen_only_adds_pull_request_keys accepted m w k :
  let r := run env (Listen accepted) m w in
  (is_Some (m !! k) → is_Some (final_map r !! k))
  ∧ (is_Some (final_map r !! k) →
     is_Some (m !! k) ∨ (k ≠ EmptyString ∧ all_digits k = true)).
Proof.
  intros r. subst r. rewrite run_replay. apply replay_store_ok.
  apply Listen_forall. apply handler_store_ok.
Qed.

(** X7.  A handler panics exactly when a port query it makes returns,
    without error, a list whose first container has no port
    ([containers[0].Ports[0]] is then out of range).  The client of that
    connection gets no verdict, and since the accept loop called the
    handler directly the connections behind it are never handled. *)
Theorem portless_container_panics c rest m w :
  let rh := run env (handleConnection c) m w in
  let rl := run env (Listen (c :: rest)) m w in
  (existsb portless (trace rh) = true ↔ outcome rh = Panicked)
  ∧ (outcome rh = Panicked →
     outcome rl = Panicked ∧ calls rl = calls rh ∧ verdicts (calls rl) = []).
Proof.
  intros rh rl. split.
  - subst rh.
    apply (allruns_run env (handleConnection c)
             (λ tr out, existsb portless tr = true ↔ out = Panicked)).
    by_address c; all_paths; done.
  - intros Ho. subst rl. rewrite Listen_cons, run_bind.
    unfold and_then. fold rh. rewrite Ho. unfold calls. cbn [trace outcome].
    split; [done|split; [done|]].
    pose proof (allruns_run env (handleConnection c)
             (λ tr out, out = Panicked → verdicts (op_of <$> tr) = [])) as H.
    apply H; [|exact Ho].
    by_address c; all_paths; done.
Qed.

(** X8.  The accept loop hands to [handleConnection], in order, exactly the
    connections accepted before the first error that follows [Close];
    errors of [Accept] before that drop no connection.  If no handler
    panics the function has returned [nil] when such an error was among
    the results and still waits in [Accept] otherwise; and when
    [minecraft.Listen] itself fails, that error is returned and nothing is
    accepted. *)
Theorem accept_loop_serves_in_order accepts m w :
  let r := run env (ListenOn None accepts) m w in
  let r' := run env (Listen (served accepts)) m w in
  (trace r = trace r' ∧ final_map r = final_map r'
   ∧ outcome r = match outcome r' with
                 | Done _ => Done (if closes accepts then Some None else None)
                 | Panicked => Panicked
                 end)
  ∧ ∀ e, calls (run env (ListenOn (Some e) accepts) m w) = []
         ∧ outcome (run env (ListenOn (Some e) accepts) m w) = Done (Some (Some e)).
Proof.
  split; [|done].
  cbn [ListenOn]. revert m w.
  induction accepts as [|[c|[|]] rest IH]; intros m w; cbn [accept_loop served].
  - done.
  - rewrite Listen_cons, !run_bind.
    destruct (IH (final_map (run env (handleConnection c) m w))
                 (final_world (run env (handleConnection c) m w)))
      as (Ht & Hm & Hout).
    unfold and_then.
    destruct (outcome (run env (handleConnection c) m w));
      cbn [trace final_map outcome]; [|done].
    by rewrite Ht, Hm, Hout.
  - done.
  - apply IH.
Qed.

End HandlerPaths.

(** ** More of the sweep *)

Lemma stops_app pr l1 l2 : stops pr (l1 ++ l2) = (stops pr l1 + stops pr l2)%nat.
Proof. unfold stops. by rewrite filter_app, length_app. Qed.

Lemma stops_none pr ops : stop_of pr ∉ ops → stops pr ops = 0%nat.
Proof.
  intros Hno. unfold stops. induction ops as [|o ops IH]; [done|].
  apply not_elem_of_cons in Hno as [Hne Hno].
  rewrite filter_cons_False by done. by apply IH.
Qed.

Section SweepMore.

Context {W : Type} (env : ∀ e : ExtOp, W → W * ExtAns e).

Import Address Listener.

(** One entry: it stops its pull request exactly when the entry is there
    and stale at the clock reading taken for it. *)
Lemma sweep_entry_stops k m w pr :
  let r := run env (sweep_entry k) m w in
  outcome r = Done tt
  ∧ (stops pr (calls r) ≤ 1)%nat
  ∧ (stop_of pr ∈ calls r ↔
     pr = k ∧ ∃ last, m !! k = Some last ∧ Time.Hour < Time.Sub (env Now w).2 last)
  ∧ final_map r = (if decide (stop_of k ∈ calls r) then delete k m else m).
Proof.
  intros r. destruct (sweep_entry_run env k m w) as [Ho Hr]. fold r in Ho, Hr.
  split; [done|]. unfold calls. destruct (m !! k) as [last|] eqn:Hk.
  - cbv zeta in Hr. destruct (Z.ltb_spec Time.Hour (Time.Sub (env Now w).2 last)).
    + destruct Hr as (a & -> & ->).
      change (op_of <$> _)
        with [Mem (MapLoad k); Ext Now; stop_of k; Mem (MapDelete k)].
      split; [|split].
      * unfold stops. rewrite !filter_cons_False by done.
        destruct (decide (pr = k)) as [->|Hne].
        -- rewrite filter_cons_True by done. rewrite filter_cons_False by done.
           simpl. lia.
        -- rewrite filter_cons_False
             by (intros H'; apply stop_of_inj in H'; done).
           rewrite filter_cons_False by done. simpl. lia.
      * rewrite !elem_of_cons, elem_of_nil. split.
        -- intros [[=]|[[=]|[H'|[[=]|[]]]]]. apply stop_of_inj in H' as <-. eauto.
        -- intros [-> _]. auto.
      * rewrite decide_True; [done|]. rewrite !elem_of_cons. auto.
    + destruct Hr as [-> ->].
      change (op_of <$> _) with [Mem (MapLoad k); Ext Now].
      split; [|split].
      * unfold stops. rewrite !filter_cons_False by done. simpl. lia.
      * rewrite !elem_of_cons, elem_of_nil. split.
        -- intros [[=]|[[=]|[]]].
        -- intros [-> (last' & [= <-] & Hs)]. lia.
      * rewrite decide_False; [done|].
        rewrite !elem_of_cons, elem_of_nil. intros [[=]|[[=]|[]]].
  - destruct Hr as [-> ->].
    change (op_of <$> _) with [Mem (MapLoad k)].
    split; [|split].
    + unfold stops. rewrite !filter_cons_False by done. simpl. lia.
    + rewrite !elem_of_cons, elem_of_nil. split.
      * intros [[=]|[]].
      * intros [-> (last' & [=] & _)].
    + rewrite decide_False; [done|].
      rewrite !elem_of_cons, elem_of_nil. intros [[=]|[]].
Qed.
End SweepMore.

Section SweepMore2.
Context {W : Type} (env : ∀ e : ExtOp, W → W * ExtAns e).

Import Address Listener.

Lemma sweep_stops ks m w pr :
  let r := run env (sweep ks) m w in
  outcome r = Done tt
  ∧ (stops pr (calls r) ≤ 1)%nat
  ∧ (stop_of pr ∈ calls r →
     is_Some (m !! pr) ∧ pr ∈ ks ∧ final_map r !! pr = None)
  ∧ (∀ v, final_map r !! pr = Some v → m !! pr = Some v).
Proof.
  revert m w. induction ks as [|k ks IH]; intros m w r; subst r.
  - change (sweep []) with (@Ret unit tt). unfold calls, stops. simpl.
    split; [done|split; [lia|split; [by intros ?%elem_of_nil|done]]].
  - rewrite run_sweep_cons.
    destruct (sweep_entry_stops env k m w pr) as (Ho & Hle & Hin & Hmap).
    set (r1 := run env (sweep_entry k) m w) in *.
    destruct (and_then_done r1 (λ _, run env (sweep ks)) tt Ho) as (-> & -> & ->).
    destruct (IH (final_map r1) (final_world r1)) as (Ho2 & Hle2 & Hin2 & Hsub2).
    set (r2 := run env (sweep ks) (final_map r1) (final_world r1)) in *.
    assert (Hsub1 : ∀ q v, final_map r1 !! q = Some v → m !! q = Some v).
    { intros q v. rewrite Hmap. case_decide; [|done].
      intros [_ ?]%lookup_delete_Some. done. }
    split; [done|]. rewrite stops_app, elem_of_app. split; [|split].
    + destruct (decide (stop_of pr ∈ calls r1)) as [H1|H1].
      * assert (stop_of pr ∉ calls r2) as H2.
        { intros H2. destruct (Hin2 H2) as ([v Hv] & _ & _).
          pose proof H1 as H1'. apply Hin in H1' as [-> _].
          rewrite Hmap, decide_True in Hv by done.
          by rewrite lookup_delete_eq in Hv. }
        rewrite (stops_none pr (calls r2) H2). lia.
      * rewrite (stops_none pr (calls r1) H1). lia.
    + intros [H1|H2].
      * pose proof H1 as H1'. apply Hin in H1 as [-> (last & Hk & _)].
        split; [by rewrite Hk|]. split; [by left|].
        apply eq_None_not_Some. intros [v Hv].
        apply Hsub2 in Hv. rewrite Hmap, decide_True in Hv by done.
        by rewrite lookup_delete_eq in Hv.
      * destruct (Hin2 H2) as ([v Hv] & Hks & Hnone).
        split; [rewrite (Hsub1 _ _ Hv); eauto|]. split; [by right|done].
    + intros v Hv. apply Hsub1. by apply Hsub2.
Qed.
End SweepMore2.

Section Ticks.
Context {W : Type} (env : ∀ e : ExtOp, W → W * ExtAns e).

Import Address Listener.

Lemma keys_tracked (m : gmap string Z) pr :
  pr ∈ (map_to_list m).*1 ↔ is_Some (m !! pr).
Proof.
  rewrite list_elem_of_fmap. split.
  - intros ([k v] & -> & Hin). apply elem_of_map_to_list in Hin. eauto.
  - intros [v Hv]. exists (pr, v). split; [done|]. by apply elem_of_map_to_list.
Qed.

Lemma tick_stops m w pr :
  let r := run env tick m w in
  outcome r = Done tt
  ∧ (stops pr (calls r) ≤ 1)%nat
  ∧ (stop_of pr ∈ calls r → is_Some (m !! pr) ∧ final_map r !! pr = None)
  ∧ (∀ v, final_map r !! pr = Some v → m !! pr = Some v).
Proof.
  intros r. subst r. rewrite run_tick.
  destruct (sweep_stops env (map_to_list m).*1 m w pr) as (Ho & Hle & Hin & Hsub).
  unfold calls in *. cbn [observe trace outcome final_map fmap list_fmap].
  split; [done|]. split; [|split; [|done]].
  - unfold stops in *. by rewrite filter_cons_False by done.
  - intros [[=]|H]%elem_of_cons. destruct (Hin H) as (? & _ & ?). done.
Qed.

(** X10.  A tick never adds or changes an entry of [lastConnections]:
    what is left is part of what was there.  And it runs the stop command
    only for pull requests it found in the map, whose entry is gone when the
    tick ends. *)
Theorem tick_only_removes_tracked_entries m w :
  let r := run env tick m w in
  final_map r ⊆ m
  ∧ ∀ pr, stop_of pr ∈ calls r → is_Some (m !! pr) ∧ final_map r !! pr = None.
Proof.
  intros r. split.
  - apply map_subseteq_spec. intros pr v. by apply tick_stops.
  - intros pr. by apply tick_stops.
Qed.

Lemma loop_stops wakes m w pr :
  let r := run env (KillInactiveServers wakes) m w in
  (∃ b, outcome r = Done b)
  ∧ (stops pr (calls r) ≤ 1)%nat
  ∧ (stop_of pr ∈ calls r → final_map r !! pr = None)
  ∧ (∀ v, final_map r !! pr = Some v → m !! pr = Some v).
Proof.
  revert m w. induction wakes as [|[|] rest IH]; intros m w r; subst r.
  - unfold calls, stops. simpl.
    split; [eauto|split; [lia|split; [by intros ?%elem_of_nil|done]]].
  - change (KillInactiveServers (TickC :: rest))
      with (tick;; KillInactiveServers rest).
    rewrite run_bind.
    destruct (tick_stops m w pr) as (Ho & Hle & Hin & Hsub).
    set (r1 := run env tick m w) in *.
    destruct (and_then_done r1 (λ _, run env (KillInactiveServers rest)) tt Ho)
      as (-> & -> & ->).
    destruct (IH (final_map r1) (final_world r1)) as (Ho2 & Hle2 & Hin2 & Hsub2).
    set (r2 := run env (KillInactiveServers rest) (final_map r1) (final_world r1)) in *.
    split; [done|]. rewrite stops_app, elem_of_app. split; [|split].
    + destruct (decide (stop_of pr ∈ calls r1)) as [H1|H1].
      * assert (stop_of pr ∉ calls r2) as H2.
        { intros H2. destruct (Hin H1) as [_ Hnone].
          assert (is_Some (final_map r1 !! pr)) as [v Hv]; [|congruence].
          clear -H2 env. subst r2. revert H2. generalize (final_map r1), (final_world r1).
          induction rest as [|[|] rest IHr]; intros m' w'.
          - unfold calls. simpl. by intros ?%elem_of_nil.
          - change (KillInactiveServers (TickC :: rest))
              with (tick;; KillInactiveServers rest).
            rewrite run_bind.
            destruct (tick_stops m' w' pr) as (Ho & _ & Hin & Hsub).
            destruct (and_then_done (run env tick m' w')
                        (λ _, run env (KillInactiveServers rest)) tt Ho)
              as (-> & _ & _).
            rewrite elem_of_app. intros [H|H].
            + by apply Hin.
            + destruct (IHr _ _ H) as [v Hv]. apply Hsub in Hv. eauto.
          - unfold calls. simpl. by intros ?%elem_of_nil. }
        rewrite (stops_none pr (calls r2) H2). lia.
      * rewrite (stops_none pr (calls r1) H1). lia.
    + intros [H1|H2]; [|auto].
      destruct (Hin H1) as [_ Hnone].
      apply eq_None_not_Some. intros [v Hv]. apply Hsub2 in Hv. congruence.
    + intros v Hv. apply Hsub. by apply Hsub2.
  - unfold calls, stops. simpl.
    split; [eauto|split; [lia|split; [by intros ?%elem_of_nil|done]]].
Qed.

(** X11.  However many ticks the sweep loop runs, with no connection
    handled in between, the stop command of a pull request is run at most
    once: once stopped its entry is gone and no later tick finds it.  The
    loop as a whole only removes entries. *)
Theorem stopped_at_most_once wakes m w pr :
  let r := run env (KillInactiveServers wakes) m w in
  (stops pr (calls r) ≤ 1)%nat
  ∧ (stop_of pr ∈ calls r → final_map r !! pr = None)
  ∧ final_map r ⊆ m.
Proof.
  intros r. split; [|split].
  - by apply loop_stops.
  - by apply loop_stops.
  - apply map_subseteq_spec. intros q v.
    destruct (loop_stops wakes m w q) as (_ & _ & _ & Hsub). apply Hsub.
Qed.

(** X12.  The sweep loop never panics; it returns exactly when the kill
    channel wakes it, and wake-ups that come after that one have no effect:
    the calls made are those of the ticks before it. *)
Theorem sweep_loop_returns_on_kill wakes m w :
  outcome (run env (KillInactiveServers wakes) m w) = Done (bool_decide (KillC ∈ wakes))
  ∧ ∀ before after,
      wakes = before ++ KillC :: after → KillC ∉ before →
      trace (run env (KillInactiveServers wakes) m w)
      = trace (run env (KillInactiveServers before) m w).
Proof.
  split.
  - revert m w. induction wakes as [|[|] rest IH]; intros m w.
    + done.
    + change (KillInactiveServers (TickC :: rest))
        with (tick;; KillInactiveServers rest).
      rewrite run_bind.
      destruct (tick_stops m w EmptyString) as (Ho & _).
      destruct (and_then_done (run env tick m w)
                  (λ _, run env (KillInactiveServers rest)) tt Ho) as (_ & _ & ->).
      rewrite IH. f_equal. apply bool_decide_ext.
      rewrite elem_of_cons. split; [by right|by intros [[=]|?]].
    + done.
  - intros before after -> Hno. revert m w.
    induction before as [|[|] before IH]; intros m w.
    + done.
    + change (KillInactiveServers ((TickC :: before) ++ KillC :: after))
        with (tick;; KillInactiveServers (before ++ KillC :: after)).
      change (KillInactiveServers (TickC :: before))
        with (tick;; KillInactiveServers before).
      rewrite !run_bind. unfold and_then.
      destruct (outcome (run env tick m w)); cbn [trace]; [|done].
      rewrite IH; [done|]. set_solver.
    + set_solver.
Qed.
End Ticks.

Section Steady.
Context {W : Type} (env : ∀ e : ExtOp, W → W * ExtAns e).

Import Address Listener.
Context (now : Z) (steady : ∀ w, (env Now w).2 = now).

Lemma sweep_steady ks m w pr :
  stop_of pr ∈ calls (run env (sweep ks) m w)
  ↔ pr ∈ ks ∧ ∃ last, m !! pr = Some last ∧ Time.Hour < Time.Sub now last.
Proof.
  revert m w. induction ks as [|k ks IH]; intros m w.
  - change (sweep []) with (@Ret unit tt). unfold calls. simpl.
    split; [by intros ?%elem_of_nil|by intros [?%elem_of_nil _]].
  - rewrite run_sweep_cons.
    destruct (sweep_entry_stops env k m w pr) as (Ho & _ & Hin & Hmap).
    rewrite steady in Hin.
    set (r1 := run env (sweep_entry k) m w) in *.
    destruct (and_then_done r1 (λ _, run env (sweep ks)) tt Ho) as (-> & _ & _).
    rewrite elem_of_app, (IH (final_map r1) (final_world r1)), Hin, elem_of_cons.
    assert (Hother : pr ≠ k → final_map r1 !! pr = m !! pr).
    { intros Hne. rewrite Hmap. case_decide; [|done]. by rewrite lookup_delete_ne. }
    assert (Hsub : ∀ v, final_map r1 !! pr = Some v → m !! pr = Some v).
    { intros v. rewrite Hmap. case_decide; [|done].
      by intros [_ ?]%lookup_delete_Some. }
    split.
    + intros [[-> Hst]|[Hks (last & Hl & Hst)]]; [eauto|].
      split; [by right|]. exists last. split; [by apply Hsub|done].
    + intros [[->|Hks] (last & Hl & Hst)]; [left; eauto|].
      destruct (decide (pr = k)) as [->|Hne]; [left; eauto|].
      right. split; [done|]. exists last. by rewrite Hother.
Qed.

(** X9.  On a clock that reads [now] throughout, a tick runs the stop
    command for exactly the pull requests whose entry is more than an hour
    old ([time.Since(lastConn) > time.Hour], so an entry exactly one hour old
    is kept), deletes exactly those entries and leaves the others as they
    were. *)
Theorem steady_tick_stops_exactly_the_stale m w pr :
  let r := run env tick m w in
  (stop_of pr ∈ calls r ↔ ∃ last, m !! pr = Some last ∧ Time.Hour < Time.Sub now last)
  ∧ final_map r !! pr
    = match m !! pr with
      | Some last => if Time.Hour <? Time.Sub now last then None else Some last
      | None => None
      end.
Proof.
  intros r.
  assert (Hiff : stop_of pr ∈ calls r
                 ↔ ∃ last, m !! pr = Some last ∧ Time.Hour < Time.Sub now last).
  { subst r. rewrite run_tick. unfold calls. cbn [observe trace fmap list_fmap].
    rewrite elem_of_cons. fold (calls (run env (sweep (map_to_list m).*1) m w)).
    rewrite sweep_steady, keys_tracked. split.
    - intros [[=]|[_ H]]. done.
    - intros (last & Hl & Hst). right. split; [by rewrite Hl|eauto]. }
  split; [done|].
  destruct (sweep_stop_forgets env (map_to_list m).*1 m w pr) as [Hin Hout].
  assert (Hsame : stop_of pr ∈ calls (run env (sweep (map_to_list m).*1) m w)
                  ↔ stop_of pr ∈ calls r).
  { subst r. rewrite run_tick. unfold calls. cbn [observe trace fmap list_fmap].
    rewrite elem_of_cons. split; [by right|by intros [[=]|?]]. }
  assert (Hfinal : final_map r
                   = final_map (run env (sweep (map_to_list m).*1) m w)).
  { subst r. by rewrite run_tick. }
  rewrite Hfinal. destruct (m !! pr) as [last|] eqn:Hl.
  - destruct (Z.ltb_spec Time.Hour (Time.Sub now last)) as [Hst|Hfresh].
    + apply Hin, Hsame, Hiff. eauto.
    + rewrite Hout; [done|]. rewrite Hsame, Hiff.
      intros (last' & [= <-] & Hst). lia.
  - rewrite Hout; [done|]. rewrite Hsame, Hiff. by intros (? & [=] & _).
Qed.
End Steady.

(** ** Activity: the clock, the window and the ticker *)

Lemma sublist_sorted {A : Type} (R : relation A) (l1 l2 : list A) :
  l1 `sublist_of` l2 → StronglySorted R l2 → StronglySorted R l1.
Proof.
  induction 1 as [|x l1 l2 Hsub IH|x l1 l2 Hsub IH]; intros Hs; [done| |].
  - apply StronglySorted_cons in Hs as [Hall Hs].
    apply StronglySorted_cons. split; [|auto].
    rewrite Forall_forall in *. intros y Hy. apply Hall.
    by eapply elem_of_sublist.
  - apply StronglySorted_cons in Hs as [_ Hs]. auto.
Qed.

Lemma hour_in_range : Time.minDuration < Time.Hour ∧ Time.Hour < Time.maxDuration.
Proof. split; reflexivity. Qed.

(** [time.Since(lastConn) > time.Hour], with the saturation of
    [Duration] taken off: the window is sixty minutes. *)
Lemma stale_iff t u : Time.Hour < Time.Sub t u ↔ u + 60 * Time.Minute < t.
Proof.
  destruct hour_in_range as [Hlo Hhi].
  assert (Hh : Time.Hour = 60 * Time.Minute) by reflexivity.
  unfold Time.Sub. revert Hlo Hhi Hh.
  generalize Time.minDuration, Time.maxDuration, Time.Hour, Time.Minute. lia.
Qed.

Lemma fresh_iff t u : Time.Sub t u ≤ Time.Hour ↔ t - u ≤ 60 * Time.Minute.
Proof. pose proof (stale_iff t u). lia. Qed.

(** The ticks come five minutes apart. *)
Lemma due_first start : due start 0 = start + 5 * Time.Minute.
Proof. unfold due, Listener.sweep_period. change (Z.of_nat 1) with 1. lia. Qed.

Lemma due_next start k : due start (S k) = due start k + 5 * Time.Minute.
Proof. unfold due, Listener.sweep_period. rewrite !Nat2Z.inj_succ. ring. Qed.

Lemma minute_positive : 0 < Time.Minute.
Proof. reflexivity. Qed.

Lemma due_mono start j k : (j ≤ k)%nat → due start j ≤ due start k.
Proof.
  pose proof minute_positive. induction 1 as [|k Hle IH]; [lia|].
  rewrite due_next. lia.
Qed.

Section Clock.

Context {W : Type} (env : ∀ e : ExtOp, W → W * ExtAns e).
Context (clock : W → Z) (Hclock : ClockAdvances env clock).

Import Address Listener.

(** The clock readings of a run come in order, none before the clock of
    the world it starts in and none after that of the world it leaves. *)
Lemma run_clock {A : Type} (p : Prog A) m w :
  let r := run env p m w in
  clock w ≤ clock (final_world r)
  ∧ Forall (λ t, clock w ≤ t ∧ t ≤ clock (final_world r)) (readings (trace r))
  ∧ StronglySorted Z.le (readings (trace r)).
Proof.
  revert m w. induction p as [a| |o k IH]; intros m w; cbn zeta.
  - simpl. split; [lia|]. split; constructor.
  - simpl. split; [lia|]. split; constructor.
  - simpl. destruct (perform env o m w) as [[m' w'] a] eqn:Hp. simpl.
    destruct (IH a m' w') as (Hle & Hall & Hs).
    assert (Hw : clock w ≤ clock w').
    { destruct o as [e|mo]; simpl in Hp.
      - pose proof (never_back _ _ Hclock e w) as Hb.
        destruct (env e w). injection Hp as _ <- _. exact Hb.
      - destruct (perform_mem mo m). injection Hp as _ <- _. lia. }
    split; [lia|].
    assert (Hall' : Forall (λ t, clock w ≤ t ∧ t ≤ clock (final_world (run env (k a) m' w')))
                      (readings (trace (run env (k a) m' w')))).
    { eapply Forall_impl; [exact Hall|]. simpl. lia. }
    unfold readings in *. cbn [omap list_omap].
    destruct o as [e|mo]; [destruct e|]; cbn [reading]; try (split; [exact Hall'|exact Hs]).
    simpl in Hp. pose proof (now_reads _ _ Hclock w) as Hn.
    destruct (env Now w) as [w1 t]. injection Hp as _ <- <-. simpl in Hn. subst t.
    split.
    + constructor; [lia|exact Hall'].
    + apply SSorted_cons; [exact Hs|].
      eapply Forall_impl; [exact Hall|]. simpl. lia.
Qed.

(** The times a handler stores are clock readings it took, in order. *)
Lemma handler_stores_readings c m w pr :
  let r := run env (handleConnection c) m w in
  touch_times pr (calls r) `sublist_of` readings (trace r).
Proof.
  unfold calls.
  apply (allruns_run env (handleConnection c)
           (λ tr out, touch_times pr (op_of <$> tr) `sublist_of` readings tr)).
  unfold handleConnection.
  set (addr := before_colon (ServerAddress c)).
  destruct (String.eqb addr "df-mc.dev" || String.eqb addr "188.166.78.44");
    [all_paths; by repeat constructor|].
  destruct (String.eqb addr "plots.df-mc.dev"); [all_paths; by repeat constructor|].
  destruct (FindStringSubmatch_inv addr) as [->|(ds & -> & _)];
    [all_paths; by repeat constructor|].
  all_paths.
  all: unfold touch_times, readings; cbn; try case_decide; by repeat constructor.
Qed.

Lemma listen_stores_readings accepted m w pr :
  let r := run env (Listen accepted) m w in
  touch_times pr (calls r) `sublist_of` readings (trace r).
Proof.
  revert m w. induction accepted as [|c cs IH]; intros m w; cbn zeta.
  - done.
  - rewrite Listen_cons, run_bind. unfold and_then, calls.
    pose proof (handler_stores_readings c m w pr) as Hh. cbn zeta in Hh.
    destruct (outcome (run env (handleConnection c) m w)); cbn [trace]; [|exact Hh].
    rewrite fmap_app, touch_times_app, readings_app.
    apply sublist_app; [exact Hh|apply IH].
Qed.

(** Serving more connections adds calls at the end. *)
Lemma listen_extends accepted more m w :
  ∃ extra, calls (run env (Listen (accepted ++ more)) m w)
           = calls (run env (Listen accepted) m w) ++ extra.
Proof.
  revert m w. induction accepted as [|c cs IH]; intros m w.
  - by eexists.
  - change ((c :: cs) ++ more) with (c :: (cs ++ more)).
    rewrite !Listen_cons, !run_bind. unfold and_then, calls.
    destruct (outcome (run env (handleConnection c) m w)); cbn [trace].
    + destruct (IH (final_map (run env (handleConnection c) m w))
                   (final_world (run env (handleConnection c) m w))) as [extra He].
      unfold calls in He. exists extra. by rewrite !fmap_app, He, app_assoc.
    + exists []. by rewrite app_nil_r.
Qed.

(** With stores alone, the entry of a pull request is the last of its
    initial value and the times stored since. *)
Lemma replay_touch ops m pr :
  Forall handler_op ops →
  replay ops m !! pr = last (option_list (m !! pr) ++ touch_times pr ops).
Proof.
  intros Hops. revert m. induction Hops as [|o ops Ho _ IH]; intros m.
  - unfold replay. simpl. rewrite app_nil_r. by destruct (m !! pr).
  - change (o :: ops) with ([o] ++ ops). rewrite replay_app, touch_times_app, IH.
    destruct o as [e|[p t|p|p|]]; try done.
    unfold replay, touch_times. cbn. case_decide as Hp.
    + subst p. rewrite lookup_insert_eq. simpl.
      by destruct (m !! pr).
    + by rewrite lookup_insert_ne.
Qed.

Lemma listen_entry accepted m w pr :
  let r := run env (Listen accepted) m w in
  final_map r !! pr = last (option_list (m !! pr) ++ touch_times pr (calls r)).
Proof.
  cbn zeta. rewrite run_replay. apply replay_touch.
  apply always_run, Listen_ops.
Qed.

Lemma listen_touches_sorted accepted m w pr :
  (∀ t0, m !! pr = Some t0 → t0 ≤ clock w) →
  StronglySorted Z.le
    (option_list (m !! pr) ++ touch_times pr (calls (run env (Listen accepted) m w))).
Proof.
  intros Hinit.
  destruct (run_clock (Listen accepted) m w) as (_ & Hall & Hs).
  pose proof (listen_stores_readings accepted m w pr) as Hsub. cbn zeta in Hsub.
  apply StronglySorted_app_2.
  - intros x1 x2 Hx1 Hx2.
    destruct (m !! pr) as [t0|]; [|by apply elem_of_nil in Hx1].
    apply list_elem_of_singleton in Hx1 as ->.
    rewrite Forall_forall in Hall.
    destruct (Hall x2) as [Hlo _]; [by eapply elem_of_sublist|].
    specialize (Hinit t0 eq_refl). lia.
  - destruct (m !! pr); simpl; repeat constructor.
  - by eapply sublist_sorted.
Qed.

Lemma listen_advances accepted more m w pr t1 :
  (∀ t0, m !! pr = Some t0 → t0 ≤ clock w) →
  final_map (run env (Listen accepted) m w) !! pr = Some t1 →
  ∃ t2, final_map (run env (Listen (accepted ++ more)) m w) !! pr = Some t2 ∧ t1 ≤ t2.
Proof.
  intros Hinit H1.
  pose proof (listen_touches_sorted (accepted ++ more) m w pr Hinit) as Hsorted.
  rewrite listen_entry in H1. rewrite listen_entry.
  destruct (listen_extends accepted more m w) as [extra He].
  rewrite He, touch_times_app in *. rewrite app_assoc in *. rewrite last_app.
  destruct (last (touch_times pr extra)) as [t2|] eqn:Hlast.
  - exists t2. split; [done|].
    eapply (StronglySorted_app_1_elem_of _ _ _ _ _ Hsorted);
      by apply last_Some_elem_of.
  - exists t1. split; [done|lia].
Qed.

End Clock.

Section OnTime.

Context {W : Type} (at_time : Z → ∀ e : ExtOp, W → W * ExtAns e).
Context (Hsteady : ∀ t w, (at_time t Now w).2 = t).

Import Address Listener.

(** A tick while the clock reads [now]. *)
Lemma tick_at now m w pr :
  let r := run (at_time now) tick m w in
  (stop_of pr ∈ calls r ↔ ∃ last, m !! pr = Some last ∧ Time.Hour < Time.Sub now last)
  ∧ final_map r !! pr
    = match m !! pr with
      | Some last => if Time.Hour <? Time.Sub now last then None else Some last
      | None => None
      end.
Proof.
  intros r.
  assert (Hiff : stop_of pr ∈ calls r
                 ↔ ∃ last, m !! pr = Some last ∧ Time.Hour < Time.Sub now last).
  { subst r. rewrite run_tick. unfold calls. cbn [observe trace fmap list_fmap].
    rewrite elem_of_cons.
    fold (calls (run (at_time now) (sweep (map_to_list m).*1) m w)).
    rewrite (sweep_steady (at_time now) now (Hsteady now)), keys_tracked. split.
    - intros [[=]|[_ H]]. done.
    - intros (last & Hl & Hst). right. split; [by rewrite Hl|eauto]. }
  split; [done|].
  destruct (sweep_stop_forgets (at_time now) (map_to_list m).*1 m w pr) as [Hin Hout].
  assert (Hsame : stop_of pr ∈ calls (run (at_time now) (sweep (map_to_list m).*1) m w)
                  ↔ stop_of pr ∈ calls r).
  { subst r. rewrite run_tick. unfold calls. cbn [observe trace fmap list_fmap].
    rewrite elem_of_cons. split; [by right|by intros [[=]|?]]. }
  assert (Hfinal : final_map r
                   = final_map (run (at_time now) (sweep (map_to_list m).*1) m w)).
  { subst r. by rewrite run_tick. }
  rewrite Hfinal. destruct (m !! pr) as [last|] eqn:Hl.
  - destruct (Z.ltb_spec Time.Hour (Time.Sub now last)) as [Hst|Hfresh].
    + apply Hin, Hsame, Hiff. eauto.
    + rewrite Hout; [done|]. rewrite Hsame, Hiff.
      intros (last' & [= <-] & Hst). lia.
  - rewrite Hout; [done|]. rewrite Hsame, Hiff. by intros (? & [=] & _).
Qed.

(** The entry of a pull request that is not touched again, after tick [k]:
    it is there as long as the ticks are due within the hour. *)
Lemma nth_tick_entry start k m w pr last :
  m !! pr = Some last →
  final_map (nth_tick at_time start k m w) !! pr
  = if decide (last + 60 * Time.Minute < due start k) then None else Some last.
Proof.
  intros Hm. induction k as [|k IH].
  - cbn [nth_tick]. destruct (tick_at (due start 0) m w pr) as [_ ->]. rewrite Hm.
    destruct (Z.ltb_spec Time.Hour (Time.Sub (due start 0) last)) as [Hst|Hfresh];
      [apply stale_iff in Hst|apply fresh_iff in Hfresh]; case_decide; done || lia.
  - cbn [nth_tick].
    destruct (tick_at (due start (S k))
                (final_map (nth_tick at_time start k m w))
                (final_world (nth_tick at_time start k m w)) pr) as [_ ->].
    rewrite IH. pose proof (due_mono start k (S k) ltac:(lia)) as Hmono.
    destruct (decide (last + 60 * Time.Minute < due start k)) as [Hst|Hfresh].
    + rewrite decide_True by lia. done.
    + destruct (Z.ltb_spec Time.Hour (Time.Sub (due start (S k)) last)) as [Hst'|Hfresh'];
        [apply stale_iff in Hst'|apply fresh_iff in Hfresh']; case_decide; done || lia.
Qed.

(** A pull request is stopped in the first tick that is due more than an
    hour after its last connection, and in that one alone. *)
Lemma nth_tick_stops start k m w pr last :
  m !! pr = Some last →
  stop_of pr ∈ calls (nth_tick at_time start k m w)
  ↔ last + 60 * Time.Minute < due start k
    ∧ ∀ j, (j < k)%nat → due start j ≤ last + 60 * Time.Minute.
Proof.
  intros Hm. destruct k as [|k].
  - cbn [nth_tick]. destruct (tick_at (due start 0) m w pr) as [-> _].
    rewrite Hm. split.
    + intros (last' & [= <-] & Hst). apply stale_iff in Hst. split; [done|lia].
    + intros [Hst _]. apply stale_iff in Hst. eauto.
  - cbn [nth_tick].
    destruct (tick_at (due start (S k))
                (final_map (nth_tick at_time start k m w))
                (final_world (nth_tick at_time start k m w)) pr) as [-> _].
    rewrite (nth_tick_entry start k m w pr last Hm).
    destruct (decide (last + 60 * Time.Minute < due start k)) as [Hst|Hfresh].
    + split; [by intros (? & [=] & _)|]. intros [_ Hall].
      specialize (Hall k ltac:(lia)). lia.
    + split.
      * intros (last' & [= <-] & Hst). apply stale_iff in Hst. split; [done|].
        intros j Hj. pose proof (due_mono start j k ltac:(lia)). lia.
      * intros [Hst _]. apply stale_iff in Hst. eauto.
Qed.

End OnTime.

Section TimedLoop.

Context {W : Type} (env : ∀ e : ExtOp, W → W * ExtAns e).

Import Listener.

Lemma tick_done m w : outcome (run env tick m w) = Done tt.
Proof. by destruct (tick_stops env m w EmptyString) as (Ho & _). Qed.

Lemma loop_one_more n m w :
  let r0 := run env (KillInactiveServers (replicate n TickC)) m w in
  let r1 := run env (KillInactiveServers (replicate n TickC ++ [TickC])) m w in
  let t := run env tick (final_map r0) (final_world r0) in
  final_map r1 = final_map t ∧ final_world r1 = final_world t.
Proof.
  revert m w. induction n as [|n IH]; intros m w; cbn zeta.
  - change (KillInactiveServers (replicate 0 TickC ++ [TickC]))
      with (tick;; KillInactiveServers []).
    rewrite run_bind. unfold and_then. rewrite tick_done. done.
  - change (KillInactiveServers (replicate (S n) TickC ++ [TickC]))
      with (tick;; KillInactiveServers (replicate n TickC ++ [TickC])).
    change (KillInactiveServers (replicate (S n) TickC))
      with (tick;; KillInactiveServers (replicate n TickC)).
    rewrite !run_bind. unfold and_then. rewrite tick_done. cbn [final_map final_world].
    apply IH.
Qed.

(** With the same collaborators at every moment, the ticks handled when
    they are due are the ticks of [KillInactiveServers]. *)
Lemma nth_tick_is_loop start k m w :
  let r := run env (KillInactiveServers (replicate (S k) TickC)) m w in
  final_map (nth_tick (λ _, env) start k m w) = final_map r
  ∧ final_world (nth_tick (λ _, env) start k m w) = final_world r.
Proof.
  induction k as [|k IH]; cbn zeta.
  - change (KillInactiveServers (replicate 1 TickC)) with (tick;; KillInactiveServers []).
    rewrite run_bind. unfold and_then. rewrite tick_done. done.
  - cbn [nth_tick]. destruct IH as [-> ->].
    destruct (loop_one_more (S k) m w) as [H1 H2].
    replace (replicate (S (S k)) TickC) with (replicate (S k) TickC ++ [TickC]).
    + by rewrite H1, H2.
    + clear. induction k as [|k IH]; [done|]. simpl in *. by rewrite IH.
Qed.

End TimedLoop.

Section Activity.

Context {W : Type} (env : ∀ e : ExtOp, W → W * ExtAns e).
Context (clock : W → Z).
Context (at_time : Z → ∀ e : ExtOp, W → W * ExtAns e).

Import Address Listener.

(** C8.  The hypotheses are on the collaborators: [time.Now] reads the
    clock and no call sets it back; and the clock stands at [t] while a
    tick that is due at [t] is handled.

    A touch stores the reading of the clock.  The times that the handlers
    of a run of [Listen] store for a pull request come in increasing
    order, so its entry only moves forward: whatever it is after some
    connections, it is at least that after more of them, provided the
    entry the run started with was not ahead of the clock.

    A tick of the sweep neither stops nor forgets a pull request whose
    entry is within sixty minutes of every clock reading the tick takes.
    With the ticks handled as they are due, one every five minutes from
    the making of the ticker on, a pull request that is not connected to
    again is kept by every tick due within sixty minutes of its last
    connection; the tick that stops it is due more than sixty minutes
    after that connection, and at most sixty-five when the ticker was made
    within the hour; and once a tick was due after the hour its entry is
    gone.  With the same collaborators at every moment, these ticks are the
    ticks of [KillInactiveServers]. *)
Theorem touch_advances_and_fresh_is_kept accepted more m w pr start :
  ClockAdvances env clock →
  (∀ t w', (at_time t Now w').2 = t) →
  (final_map (run env (touch pr) m w) !! pr = Some (clock w)
   ∧ StronglySorted Z.le (touch_times pr (calls (run env (Listen accepted) m w)))
   ∧ ((∀ t0, m !! pr = Some t0 → t0 ≤ clock w) →
      ∀ t1, final_map (run env (Listen accepted) m w) !! pr = Some t1 →
            ∃ t2, final_map (run env (Listen (accepted ++ more)) m w) !! pr = Some t2
                  ∧ t1 ≤ t2))
  ∧ (∀ last, m !! pr = Some last →
     let r := run env tick m w in
     Forall (λ now, now - last ≤ 60 * Time.Minute) (readings (trace r)) →
     (stop_of pr ∉ calls r) ∧ final_map r !! pr = Some last)
  ∧ (∀ last k, m !! pr = Some last →
     let r := nth_tick at_time start k m w in
     due start k = start + (Z.of_nat k + 1) * (5 * Time.Minute)
     ∧ (due start k - last ≤ 60 * Time.Minute →
        (stop_of pr ∉ calls r) ∧ final_map r !! pr = Some last)
     ∧ (stop_of pr ∈ calls r →
        last + 60 * Time.Minute < due start k
        ∧ (start ≤ last + 60 * Time.Minute →
           due start k ≤ last + 65 * Time.Minute))
     ∧ (last + 60 * Time.Minute < due start k → final_map r !! pr = None))
  ∧ (∀ k, final_map (nth_tick (λ _, env) start k m w)
          = final_map (run env (KillInactiveServers (replicate (S k) TickC)) m w)).
Proof.
  intros Hclock Hsteady. split; [|split; [|split]]; [| | |intros k; apply nth_tick_is_loop].
  - split; [|split].
    + destruct (touch_run env pr m w) as [_ ->].
      rewrite lookup_insert_eq. by rewrite (now_reads _ _ Hclock).
    + destruct (run_clock env clock Hclock (Listen accepted) m w) as (_ & _ & Hs).
      eapply sublist_sorted; [|exact Hs].
      apply (listen_stores_readings env accepted m w pr).
    + intros Hinit t1. by apply (listen_advances env clock Hclock).
  - intros last Hm r Hfresh. subst r. rewrite run_tick in *.
    destruct (sweep_keeps_fresh env (map_to_list m).*1 m w pr last Hm) as [Hno Hkeep].
    { eapply Forall_impl; [exact Hfresh|]. intros now. apply fresh_iff. }
    split; [|exact Hkeep].
    unfold calls in *; simpl. intros [[=]|H]%elem_of_cons. by apply Hno.
  - intros last k Hm r. subst r.
    rewrite (nth_tick_stops at_time Hsteady start k m w pr last Hm).
    rewrite (nth_tick_entry at_time Hsteady start k m w pr last Hm).
    split; [|split; [|split]].
    + unfold due, sweep_period. rewrite Nat2Z.inj_succ. ring.
    + intros Hfresh. split; [intros [Hst _]; lia|].
      rewrite decide_False by lia. done.
    + intros [Hst Hbefore]. split; [done|].
      intros Hstart. destruct k as [|k].
      * rewrite due_first. lia.
      * specialize (Hbefore k ltac:(lia)). rewrite due_next. lia.
    + intros Hst. by rewrite decide_True.
Qed.

End Activity.

Lemma ticking_clock_advances : ClockAdvances ticking_env Sim.clock.
Proof.
  split.
  - intros w. reflexivity.
  - intros e w. unfold ticking_env. destruct (Sim.env e w) as [w' a]. simpl.
    unfold Time.Second. destruct e; lia.
Defined.

Section ActivityWitness.

Import Address Listener Scenario.

(** C8 at pull request 42, last seen ninety minutes after the origin of a
    clock that reads two hours and that every reading moves on by a second:
    Alice's handler records two hours, Bob's a second more.  A ticker made
    at two hours leaves 42 alone up to its tick at 150 minutes and stops it
    at the next one, at 155 minutes. *)
Lemma touch_advances_and_fresh_is_kept_witness :
  let m : gmap string Z := {["42" := 90 * Time.Minute]} in
  let start := 2 * Time.Hour in
  let last := 90 * Time.Minute in
  ClockAdvances ticking_env Sim.clock
  ∧ (∀ t w', (steady_env t Now w').2 = t)
  ∧ touch_times "42" (calls (run ticking_env (Listen [alice; bob]) m up))
    = [2 * Time.Hour; 2 * Time.Hour + Time.Second]
  ∧ final_map (run ticking_env (touch "42") m up) !! "42" = Some (2 * Time.Hour)
  ∧ StronglySorted Z.le
      (touch_times "42" (calls (run ticking_env (Listen [alice; bob]) m up)))
  ∧ (∃ t2, final_map (run ticking_env (Listen ([alice] ++ [bob])) m up) !! "42"
           = Some t2 ∧ 2 * Time.Hour ≤ t2)
  ∧ ((stop_of "42" ∉ calls (run ticking_env tick m up))
     ∧ final_map (run ticking_env tick m up) !! "42" = Some last)
  ∧ ((stop_of "42" ∉ calls (nth_tick steady_env start 5 m up))
     ∧ final_map (nth_tick steady_env start 5 m up) !! "42" = Some last)
  ∧ (last + 60 * Time.Minute < due start 6 ∧ due start 6 ≤ last + 65 * Time.Minute)
  ∧ final_map (nth_tick steady_env start 6 m up) !! "42" = None.
Proof.
  intros m start last.
  assert (Hsteady : ∀ t w', (steady_env t Now w').2 = t) by (intros t w'; reflexivity).
  assert (Htimes : touch_times "42" (calls (run ticking_env (Listen [alice; bob]) m up))
                   = [2 * Time.Hour; 2 * Time.Hour + Time.Second])
    by (vm_compute; reflexivity).
  assert (Hm : m !! "42" = Some last) by (vm_compute; reflexivity).
  destruct (touch_advances_and_fresh_is_kept ticking_env Sim.clock steady_env
              [alice; bob] [] m up "42" start ticking_clock_advances Hsteady)
    as ((_ & Hsorted & _) & _ & _ & _).
  destruct (touch_advances_and_fresh_is_kept ticking_env Sim.clock steady_env
              [alice] [bob] m up "42" start ticking_clock_advances Hsteady)
    as ((Htouch & _ & Hadvance) & Hfresh & Hticks & _).
  assert (Hinit : ∀ t0, m !! "42" = Some t0 → t0 ≤ Sim.clock up).
  { intros t0 Ht0. rewrite Hm in Ht0. injection Ht0 as <-. vm_compute. discriminate. }
  assert (H1 : final_map (run ticking_env (Listen [alice]) m up) !! "42"
               = Some (2 * Time.Hour)) by (vm_compute; reflexivity).
  assert (Hread : Forall (λ now, now - last ≤ 60 * Time.Minute)
                    (readings (trace (run ticking_env tick m up)))).
  { replace (readings (trace (run ticking_env tick m up))) with [2 * Time.Hour]
      by (vm_compute; reflexivity).
    repeat constructor. vm_compute. discriminate. }
  destruct (Hticks last 5%nat Hm) as (_ & Hkept5 & _ & _).
  destruct (Hticks last 6%nat Hm) as (_ & _ & Hstop6 & Hgone6).
  assert (Hfresh5 : due start 5 - last ≤ 60 * Time.Minute)
    by (vm_compute; discriminate).
  assert (Hin6 : stop_of "42" ∈ calls (nth_tick steady_env start 6 m up)).
  { replace (calls (nth_tick steady_env start 6 m up))
      with [Mem MapKeys; Mem (MapLoad "42"); Ext Now; stop_of "42"; Mem (MapDelete "42")]
      by (vm_compute; reflexivity).
    rewrite !elem_of_cons. auto. }
  assert (Hstart : start ≤ last + 60 * Time.Minute) by (vm_compute; discriminate).
  assert (Hstale6 : last + 60 * Time.Minute < due start 6) by (vm_compute; reflexivity).
  destruct (Hstop6 Hin6) as [Hlate Hbound].
  exact (conj ticking_clock_advances (conj Hsteady (conj Htimes (conj Htouch
           (conj Hsorted (conj (Hadvance Hinit _ H1) (conj (Hfresh last Hm Hread)
              (conj (Hkept5 Hfresh5) (conj (conj Hlate (Hbound Hstart))
                 (Hgone6 Hstale6)))))))))).
Defined.

End ActivityWitness.


Section DockerResults.
Context {W : Type} (env : ∀ e : ExtOp, W → W * ExtAns e).

Import Address Listener.

(** X13.  [ServerPort] and [StartServer] never report a port as found
    together with an error, and when they report none found the port they
    return is 0. *)
Theorem port_results_are_consistent pr m w :
  port_result_ok (outcome (run env (Docker.ServerPort pr) m w))
  ∧ port_result_ok (outcome (run env (Docker.StartServer pr) m w)).
Proof.
  split.
  - apply (allruns_run env (Docker.ServerPort pr) (λ _ out, port_result_ok out)).
    unfold Docker.ServerPort. all_paths; done.
  - apply (allruns_run env (Docker.StartServer pr) (λ _ out, port_result_ok out)).
    unfold Docker.StartServer, Docker.ServerPort. all_paths; done.
Qed.

(** X14.  [StartServer] runs the command first.  If the command fails it
    asks nothing more and returns that error, wrapped with the command
    line.  If it succeeds, what follows is exactly [ServerPort] in the world
    the command left: its calls, its port and [found] when there is no
    error, its error wrapped once more, and its panic. *)
Theorem start_server_runs_then_queries pr m w :
  let r := run env (Docker.StartServer pr) m w in
  let started := env (Exec (Docker.run_args pr)) w in
  match started.2 with
  | Some e =>
      calls r = [start_of pr]
      ∧ outcome r
        = Done (0, false,
                Some ("run command '" +:+ Docker.cmd_string (Docker.run_args pr)
                      +:+ "': " +:+ e))
  | None =>
      let q := run env (Docker.ServerPort pr) m started.1 in
      calls r = start_of pr :: calls q
      ∧ final_world r = final_world q
      ∧ match outcome q with
        | Done (_, _, Some e) =>
            outcome r = Done (0, false, Some ("get server port: " +:+ e))
        | Done (port, true, None) => outcome r = Done (port, true, None)
        | Done (_, false, None) => outcome r = Done (0, false, None)
        | Panicked => outcome r = Panicked
        end
  end.
Proof.
  intros r started. subst r started.
  unfold Docker.StartServer, Docker.ServerPort, calls. simpl.
  destruct (env (Exec (Docker.run_args pr)) w) as [w1 [e|]]; simpl; [done|].
  destruct (env (ContainerList ("pr=" +:+ pr)) w1) as [w2 [cs [e|]]]; simpl;
    [done|].
  destruct cs as [|c0 cs]; simpl; [done|].
  destruct (Ports c0); simpl; done.
Qed.

(** X15.  [BuildImage] returns the error of [docker build] and nothing
    else: when the build fails no other command is run; when it succeeds
    the kill command is run and [nil] is returned whatever that command
    reports.  [lastConnections] is not touched. *)
Theorem build_image_reports_the_build pr m w :
  let r := run env (Docker.BuildImage pr) m w in
  let build := Ext (Exec (Docker.build_args pr)) in
  outcome r = Done (env (Exec (Docker.build_args pr)) w).2
  ∧ calls r = (if (env (Exec (Docker.build_args pr)) w).2
               is Some _ then [build] else [build; stop_of pr])
  ∧ final_map r = m.
Proof.
  intros r build. subst r build. unfold Docker.BuildImage, calls. simpl.
  destruct (env (Exec (Docker.build_args pr)) w) as [w1 [e|]]; simpl; [done|].
  by destruct (env (Exec (Docker.kill_args pr)) w1).
Qed.
End DockerResults.

(** ** The theorems above at concrete inputs *)

Section MoreWitnesses.

Import Address Listener Scenario.

(** X1 at Alice, whose handshake the world [refusing] fails. *)
Lemma failed_handshake_ends_the_connection_witness :
  (Sim.env (StartGame alice) refusing).2 = Some "connection closed"
  ∧ calls (run Sim.env (handleConnection alice) ∅ refusing)
    = [Ext (StartGame alice);
       Ext (Disconnect alice "<red>Failed to start game</red>")]
  ∧ final_map (run Sim.env (handleConnection alice) ∅ refusing) = ∅.
Proof.
  assert (Hgame : (Sim.env (StartGame alice) refusing).2 = Some "connection closed")
    by reflexivity.
  exact (conj Hgame
           (failed_handshake_ends_the_connection Sim.env alice ∅ refusing _ Hgame)).
Defined.

(** X9 two hours after the origin of the clock: pull request 42, last seen
    at the origin, is stopped and forgotten. *)
Lemma steady_tick_stops_exactly_the_stale_witness :
  let env := steady_env (2 * Time.Hour) in
  let m : gmap string Z := {["42" := 0]} in
  let r := run env tick m up in
  (∀ w, (env Now w).2 = 2 * Time.Hour)
  ∧ (stop_of "42" ∈ calls r
     ↔ ∃ last, m !! "42" = Some last ∧ Time.Hour < Time.Sub (2 * Time.Hour) last)
  ∧ final_map r !! "42"
    = match m !! "42" with
      | Some last => if Time.Hour <? Time.Sub (2 * Time.Hour) last then None else Some last
      | None => None
      end.
Proof.
  intros env m r.
  assert (Hsteady : ∀ w, (env Now w).2 = 2 * Time.Hour) by (intros w; reflexivity).
  exact (conj Hsteady
           (steady_tick_stops_exactly_the_stale env (2 * Time.Hour) Hsteady m up "42")).
Defined.

End MoreWitnesses.

(** ** Closing the listener *)

Section Closing.

Context {W : Type} (env : ∀ e : ExtOp, W → W * ExtAns e).

Import Listener Lifecycle.

Lemma life_from_nil evs l :
  killChan l = None →
  ∃ l', life evs l = Some (l', closed_by evs (listener l)) ∧ killChan l' = None.
Proof.
  revert l. induction evs as [|[h|] evs IH]; intros l Hk; cbn [life closed_by].
  - eauto.
  - destruct (IH (opened h l) Hk) as (l' & -> & Hk'). eauto.
  - unfold Close. destruct l as [[h|] k]; simpl in Hk; subst k; simpl.
    + destruct (IH {| listener := None; killChan := None |} eq_refl)
        as (l' & -> & Hk'). eauto.
    + destruct (IH {| listener := None; killChan := None |} eq_refl)
        as (l' & -> & Hk'). eauto.
Qed.

(** X26.  A listener made by [NewListener] has no kill channel, and neither
    [Listen] nor [Close] ever makes one.  So however often they are called,
    [Close] never panics, it closes each [minecraft.Listener] that [Listen]
    opened at most once (the one open at the time) and is without effect
    when called again; and it never stops the sweep: the kill case of the
    [select] in [KillInactiveServers] cannot be taken, and the loop handles
    every tick and does not return. *)
Theorem close_never_stops_the_sweep evs :
  ∃ l, life evs NewListener = Some (l, closed_by evs None)
       ∧ killChan l = None
       ∧ Close l = Some ({| listener := None; killChan := None |}, option_list (listener l))
       ∧ Close {| listener := None; killChan := None |}
         = Some ({| listener := None; killChan := None |}, [])
       ∧ kill_ready l = false
       ∧ ∀ wakes m w,
           (KillC ∈ wakes → kill_ready l = true) →
           outcome (run env (KillInactiveServers wakes) m w) = Done false.
Proof.
  destruct (life_from_nil evs NewListener eq_refl) as (l & Hlife & Hk).
  exists l. split; [exact Hlife|]. split; [exact Hk|].
  assert (Hready : kill_ready l = false) by (unfold kill_ready; by rewrite Hk).
  split; [|split; [done|split; [exact Hready|]]].
  { unfold Close. destruct l as [[h|] k]; simpl in Hk; subst k; done. }
  intros wakes m w Hposs.
  assert (Hno : KillC ∉ wakes).
  { intros Hin. apply Hposs in Hin. congruence. }
  clear Hposs. revert m w. induction wakes as [|[|] rest IH]; intros m w.
  - done.
  - change (KillInactiveServers (TickC :: rest))
      with (tick;; KillInactiveServers rest).
    rewrite run_bind.
    destruct (tick_stops env m w EmptyString) as (Ho & _).
    destruct (and_then_done (run env tick m w)
                (λ _, run env (KillInactiveServers rest)) tt Ho) as (_ & _ & ->).
    apply IH. intros Hin. apply Hno. by right.
  - destruct Hno. by left.
Qed.

End Closing.

(** * The router and the clean-up at start *)

(** ** Runs of a request *)

Lemma everyrun_run {W : Type} (env : ∀ e : ExtOp, W → W * ExtAns e)
    (aenv : ∀ a : AdminOp, W → W * AdminAns a)
    {A : Type} (p : Act A) Q m w :
  EveryRun p Q →
  Q (history (act_run env aenv p m w)) (result (act_run env aenv p m w)).
Proof.
  revert Q m w. induction p as [a| |o k IH]; intros Q m w H; simpl in *; try done.
  destruct (act_perform env aenv o m w) as [[m' w'] a]. simpl.
  apply (IH a (λ tr out, Q (existT o a :: tr) out)). apply H.
Qed.

(** The map at the end of a run is the map operations of the run,
    replayed; the world is the one its calls leave. *)
Lemma act_run_replay {W : Type} (env : ∀ e : ExtOp, W → W * ExtAns e)
    (aenv : ∀ a : AdminOp, W → W * AdminAns a) {A : Type} (p : Act A) m w :
  end_map (act_run env aenv p m w) = replay (core_ops (done (act_run env aenv p m w))) m.
Proof.
  revert m w. induction p as [a| |o k IH]; intros m w; try done.
  simpl. destruct (act_perform env aenv o m w) as [[m' w'] a] eqn:Hp.
  unfold done in *. simpl. rewrite IH.
  destruct o as [[e|mo]|a']; simpl in *.
  - destruct (env e w). by injection Hp as <- _ _.
  - unfold replay. simpl.
    destruct (perform_mem mo m) as [m1 a1] eqn:Hm. injection Hp as <- _ _. done.
  - destruct (aenv a' w). by injection Hp as <- _ _.
Qed.

Lemma act_run_world {W : Type} (env : ∀ e : ExtOp, W → W * ExtAns e)
    (aenv : ∀ a : AdminOp, W → W * AdminAns a) {A : Type} (p : Act A) m w :
  end_world (act_run env aenv p m w)
  = world_after env aenv (done (act_run env aenv p m w)) w.
Proof.
  revert m w. induction p as [a| |o k IH]; intros m w; try done.
  simpl. destruct (act_perform env aenv o m w) as [[m' w'] a] eqn:Hp.
  unfold done in *. simpl. rewrite IH. unfold world_after. simpl. f_equal.
  destruct o as [[e|mo]|a']; simpl in *.
  - destruct (env e w). by injection Hp as _ <- _.
  - destruct (perform_mem mo m). by injection Hp as _ <- _.
  - destruct (aenv a' w). by injection Hp as _ <- _.
Qed.

Lemma replay_no_mem ops m :
  Forall (λ o, is_tracker_call o = false) ops → replay ops m = m.
Proof.
  intros H. unfold replay. induction H as [|o ops Ho _ IH]; [done|].
  destruct o as [e|[]]; done.
Qed.

(** What [strconv.Atoi] accepts is an optional sign and digits. *)
Lemma Atoi_numeral s v : Strconv.Atoi s = Some v → numeral s.
Proof.
  unfold Strconv.Atoi, Strconv.split_sign. destruct s as [|c rest].
  { simpl. discriminate. }
  destruct (Ascii.eqb c "-") eqn:Hm; [|destruct (Ascii.eqb c "+") eqn:Hp].
  - apply Ascii.eqb_eq in Hm as ->.
    destruct (negb (String.eqb rest EmptyString) && Address.all_digits rest) eqn:Hb;
      [|discriminate].
    intros _. apply andb_true_iff in Hb as [Hne Hd].
    exists rest. split; [auto|]. split; [|done].
    intros ->. by rewrite String.eqb_refl in Hne.
  - apply Ascii.eqb_eq in Hp as ->.
    destruct (negb (String.eqb rest EmptyString) && Address.all_digits rest) eqn:Hb;
      [|discriminate].
    intros _. apply andb_true_iff in Hb as [Hne Hd].
    exists rest. split; [auto|]. split; [|done].
    intros ->. by rewrite String.eqb_refl in Hne.
  - destruct (negb (String.eqb (String c rest) EmptyString)
              && Address.all_digits (String c rest)) eqn:Hb; [|discriminate].
    intros _. apply andb_true_iff in Hb as [Hne Hd].
    exists (String c rest). split; [auto|]. split; [done|done].
Qed.

(** ** The clean-up at start *)

Section CleanupFacts.

Context {W : Type} (env : ∀ e : ExtOp, W → W * ExtAns e).
Context (aenv : ∀ a : AdminOp, W → W * AdminAns a).

Import Cleanup.

Lemma kill_each_run cs m w :
  let r := act_run env aenv (kill_each cs) m w in
  done r = (λ k, Adm (ContainerKill k.1 k.2)) <$> kills (done r)
  ∧ kills (done r) `prefix_of` sigint <$> pr_containers cs
  ∧ match result r with
    | Done None =>
        kills (done r) = sigint <$> pr_containers cs ∧ kill_errors (history r) = []
    | Done (Some e) =>
        ∃ c e0, c ∈ pr_containers cs
                ∧ last (history r)
                  = Some (existT (Adm (ContainerKill (ID c) "SIGINT")) (Some e0))
                ∧ kill_errors (history r) = [e0]
                ∧ e = "remove container " +:+ ID c +:+ ": " +:+ e0
    | Panicked => False
    end.
Proof.
  revert m w. induction cs as [|c cs IH]; intros m w r; subst r.
  { simpl. split; [done|]. split; [done|]. done. }
  unfold pr_containers. cbn [kill_each].
  destruct (String.prefix "pr-" (Image c)) eqn:Hpre.
  - rewrite filter_cons_True by done. fold (pr_containers cs).
    unfold done. simpl.
    destruct (aenv (ContainerKill (ID c) "SIGINT") w) as [w1 [e|]]; simpl.
    + split; [done|]. split.
      * by apply (prefix_cons (ID c, "SIGINT") []), prefix_nil.
      * exists c, e. split; [by left|]. done.
    + destruct (IH m w1) as (Hd & Hp & Hr). unfold done in *.
      split; [by rewrite Hd at 1|]. split; [by apply prefix_cons|].
      destruct (result (act_run env aenv (kill_each cs) m w1)) as [[e|]|];
        [|destruct Hr as [Hk He]; split;
           [exact (f_equal (cons (sigint c)) Hk)|exact He]|done].
      destruct Hr as (c' & e0 & Hin & Hlast & Herrs & ->).
      exists c', e0. split; [by right|].
      split; [|done].
      destruct (history (act_run env aenv (kill_each cs) m w1)); [done|].
      exact Hlast.
  - rewrite filter_cons_False by (rewrite Hpre; done). fold (pr_containers cs).
    apply IH.
Qed.

(** X16.  [ClearContainers] lists the containers once.  If the list fails
    it signals nothing and returns that error, wrapped.  Otherwise it does
    nothing but send SIGINT, in the order of the list, to containers whose
    image name starts with [pr-], each at most once and no other container
    ever; it returns [nil] exactly after signalling all of them with no
    error, and at the first signal that fails it stops, leaves the rest
    unsignalled and returns that error, wrapped with the container's ID.
    It never panics. *)
Theorem clear_containers_kills_pr_images m w :
  let r := act_run env aenv ClearContainers m w in
  let listed := (aenv ListAll w).2 in
  match listed.2 with
  | Some e =>
      done r = [Adm ListAll] ∧ result r = Done (Some ("list containers: " +:+ e))
  | None =>
      done r = Adm ListAll :: ((λ k, Adm (ContainerKill k.1 k.2)) <$> kills (done r))
      ∧ kills (done r) `prefix_of` sigint <$> pr_containers listed.1
      ∧ match result r with
        | Done None =>
            kills (done r) = sigint <$> pr_containers listed.1
            ∧ kill_errors (history r) = []
        | Done (Some e) =>
            ∃ c e0, c ∈ pr_containers listed.1
                    ∧ last (history r)
                      = Some (existT (Adm (ContainerKill (ID c) "SIGINT")) (Some e0))
                    ∧ kill_errors (history r) = [e0]
                    ∧ e = "remove container " +:+ ID c +:+ ": " +:+ e0
        | Panicked => False
        end
  end.
Proof.
  intros r listed. subst r listed. unfold ClearContainers, done. simpl.
  destruct (aenv ListAll w) as [w1 [cs [e|]]]; simpl; [done|].
  destruct (kill_each_run cs m w1) as (Hd & Hp & Hr). unfold done in *.
  split; [by rewrite Hd at 1|]. split; [done|].
  destruct (result (act_run env aenv (kill_each cs) m w1)) as [[e|]|]; [|done|done].
  destruct Hr as (c' & e0 & Hin & Hlast & Herrs & ->).
  exists c', e0. split; [done|]. split; [|done].
  destruct (history (act_run env aenv (kill_each cs) m w1)); [done|].
  exact Hlast.
Qed.

End CleanupFacts.

(** ** The two routes *)

Section Requests.

Context {W : Type} (env : ∀ e : ExtOp, W → W * ExtAns e).
Context (aenv : ∀ a : AdminOp, W → W * AdminAns a).

Import Router.

(** X17.  The middleware reads the [X-API-Key] header once and compares it
    with the router's key.  When they are equal the request is served by
    the wrapped handler, from the world the read left, and nothing is added
    to what that handler does; when they differ the request is answered
    401 and the wrapped handler does not run.  The comparison is the whole
    test: a router whose key is empty serves requests that carry no key or
    an empty one and turns away every request that carries a key. *)
Theorem middleware_checks_the_key apiKey (next : Act unit) m w :
  let r := act_run env aenv (apiKeyMiddleware apiKey next) m w in
  let asked := aenv (HeaderGet "X-API-Key") w in
  let served := act_run env aenv next m asked.1 in
  if decide (asked.2 = apiKey)
  then history r = existT (Adm (HeaderGet "X-API-Key")) asked.2 :: history served
       ∧ result r = result served
       ∧ end_world r = end_world served
  else done r = [Adm (HeaderGet "X-API-Key"); Adm (HttpError "Unauthorized" 401)]
       ∧ result r = Done tt.
Proof.
  intros r asked served. subst r asked served.
  unfold apiKeyMiddleware, done. simpl.
  destruct (aenv (HeaderGet "X-API-Key") w) as [w1 key]. simpl.
  case_decide as Hkey.
  - subst key. rewrite String.eqb_refl. simpl. done.
  - apply String.eqb_neq in Hkey. rewrite Hkey. simpl.
    by destruct (aenv (HttpError _ _) w1) as [w2 []].
Qed.

(** X18.  Every request to either route is answered exactly once, and the
    answer is the last thing the handler does: an upload with 201, 400,
    401 or 500, a delete with 204, 400, 401 or 404. *)
Theorem one_response_per_request apiKey notExist m w :
  let post := act_run env aenv (postPullRequest apiKey) m w in
  let del := act_run env aenv (deletePullRequest apiKey notExist) m w in
  (∃ code, statuses (done post) = [code]
           ∧ status <$> last (done post) = Some (Some code)
           ∧ code ∈ [201; 400; 401; 500])
  ∧ (∃ code, statuses (done del) = [code]
             ∧ status <$> last (done del) = Some (Some code)
             ∧ code ∈ [204; 400; 401; 404]).
Proof.
  intros post del. subst post del. split.
  - apply (everyrun_run env aenv (postPullRequest apiKey)
             (λ tr out, ∃ code, statuses (sys_op <$> tr) = [code]
                                ∧ status <$> last (sys_op <$> tr) = Some (Some code)
                                ∧ code ∈ [201; 400; 401; 500])).
    unfold postPullRequest, apiKeyMiddleware, handleCreatePullRequest, uploadBinary.
    every_path.
    all: eexists; split; [reflexivity|split; [reflexivity|]].
    all: unfold StatusCreated, StatusBadRequest, StatusUnauthorized,
           StatusInternalServerError; set_solver.
  - apply (everyrun_run env aenv (deletePullRequest apiKey notExist)
             (λ tr out, ∃ code, statuses (sys_op <$> tr) = [code]
                                ∧ status <$> last (sys_op <$> tr) = Some (Some code)
                                ∧ code ∈ [204; 400; 401; 404])).
    unfold deletePullRequest, apiKeyMiddleware, handleDeletePullRequest.
    every_path.
    all: eexists; split; [reflexivity|split; [reflexivity|]].
    all: unfold StatusNoContent, StatusBadRequest, StatusUnauthorized,
           StatusNotFound; set_solver.
Qed.

(** X19.  A request that is turned away has changed nothing.  An upload
    has written no file, made no directory and run no command exactly when
    it is answered 400 or 401 (an upload answered 500 has at least tried
    to make the directory); a delete has removed nothing and run no command
    exactly when it is answered anything but 204.  Neither route ever
    touches [lastConnections]. *)
Theorem rejected_requests_touch_nothing apiKey notExist m w :
  let post := act_run env aenv (postPullRequest apiKey) m w in
  let del := act_run env aenv (deletePullRequest apiKey notExist) m w in
  (effects (done post) = [] ↔ statuses (done post) = [400] ∨ statuses (done post) = [401])
  ∧ (effects (done del) = [] ↔ statuses (done del) ≠ [204])
  ∧ end_map post = m ∧ end_map del = m.
Proof.
  intros post del. subst post del. rewrite !act_run_replay.
  refine (conj _ (conj _ (conj _ _))).
  - apply (everyrun_run env aenv (postPullRequest apiKey)
             (λ tr out, effects (sys_op <$> tr) = []
                        ↔ statuses (sys_op <$> tr) = [400]
                          ∨ statuses (sys_op <$> tr) = [401])).
    unfold postPullRequest, apiKeyMiddleware, handleCreatePullRequest, uploadBinary.
    every_path.
    all: split; [try discriminate; auto|intros [|]; try discriminate; auto].
  - apply (everyrun_run env aenv (deletePullRequest apiKey notExist)
             (λ tr out, effects (sys_op <$> tr) = []
                        ↔ statuses (sys_op <$> tr) ≠ [204])).
    unfold deletePullRequest, apiKeyMiddleware, handleDeletePullRequest.
    every_path.
    all: split; [try discriminate; auto|try done; intros H; by destruct H].
  - apply replay_no_mem.
    apply (everyrun_run env aenv (postPullRequest apiKey)
             (λ tr out, Forall (λ o, is_tracker_call o = false)
                          (core_ops (sys_op <$> tr)))).
    unfold postPullRequest, apiKeyMiddleware, handleCreatePullRequest, uploadBinary.
    every_path; repeat constructor.
  - apply replay_no_mem.
    apply (everyrun_run env aenv (deletePullRequest apiKey notExist)
             (λ tr out, Forall (λ o, is_tracker_call o = false)
                          (core_ops (sys_op <$> tr)))).
    unfold deletePullRequest, apiKeyMiddleware, handleDeletePullRequest.
    every_path; repeat constructor.
Qed.

(** X20.  Whatever a request sends, the paths and commands of the router
    are those of one number.  Either the run reaches the host not at all,
    or the request named a string [s] that is an optional sign followed by
    one or more decimal digits (what [strconv.Atoi] accepts: no slash, no
    dot, no space), and every path the run names is ["pr-" ++ s] or
    ["binaries/pr-" ++ s] and every command it runs is the build, the kill,
    the wait or the image removal of [s]; it lists and signals no
    container. *)
Theorem router_names_are_confined apiKey notExist m w :
  let post := act_run env aenv (postPullRequest apiKey) m w in
  let del := act_run env aenv (deletePullRequest apiKey notExist) m w in
  (Forall (λ o, touches_host o = false) (done post)
   ∨ ∃ s, omap named (history post) = [s] ∧ numeral s
          ∧ Forall (names_only s) (done post))
  ∧ (Forall (λ o, touches_host o = false) (done del)
     ∨ ∃ s, omap named (history del) = [s] ∧ numeral s
            ∧ Forall (names_only s) (done del)).
Proof.
  intros post del. subst post del. split.
  - apply (everyrun_run env aenv (postPullRequest apiKey)
             (λ tr out, Forall (λ o, touches_host o = false) (sys_op <$> tr)
                        ∨ ∃ s, omap named tr = [s] ∧ numeral s
                               ∧ Forall (names_only s) (sys_op <$> tr))).
    unfold postPullRequest, apiKeyMiddleware, handleCreatePullRequest, uploadBinary.
    every_path.
    all: first [ by left; repeat constructor
               | right; eexists; split; [reflexivity|];
                 split; [by eapply Atoi_numeral|];
                 repeat constructor ].
  - apply (everyrun_run env aenv (deletePullRequest apiKey notExist)
             (λ tr out, Forall (λ o, touches_host o = false) (sys_op <$> tr)
                        ∨ ∃ s, omap named tr = [s] ∧ numeral s
                               ∧ Forall (names_only s) (sys_op <$> tr))).
    unfold deletePullRequest, apiKeyMiddleware, handleDeletePullRequest.
    every_path.
    all: first [ by left; repeat constructor
               | right; eexists; split; [reflexivity|];
                 split; [by eapply Atoi_numeral|];
                 repeat constructor ].
Qed.

Lemma created_history apiKey m w :
  let r := act_run env aenv (postPullRequest apiKey) m w in
  statuses (done r) = [201] →
  ∃ pr made closed stopped,
    is_Some (Strconv.Atoi pr) ∧ history r = created_run apiKey pr made closed stopped.
Proof.
  intros r. subst r.
  apply (everyrun_run env aenv (postPullRequest apiKey)
           (λ tr out, statuses (sys_op <$> tr) = [201] →
                      ∃ pr made closed stopped,
                        is_Some (Strconv.Atoi pr)
                        ∧ tr = created_run apiKey pr made closed stopped)).
  unfold postPullRequest, apiKeyMiddleware, handleCreatePullRequest, uploadBinary.
  every_path.
  all: try discriminate.
  all: match goal with H : String.eqb _ _ = true |- _ => apply String.eqb_eq in H as -> end.
  all: eexists _, _, _, _; (split; [|reflexivity]); eauto.
Qed.

Lemma deleted_history apiKey notExist m w :
  let r := act_run env aenv (deletePullRequest apiKey notExist) m w in
  statuses (done r) = [204] →
  ∃ pr found ks,
    is_Some (Strconv.Atoi pr)
    ∧ (∀ e, found = Some e → notExist e = false)
    ∧ history r = deleted_run apiKey pr found ks.
Proof.
  intros r. subst r.
  apply (everyrun_run env aenv (deletePullRequest apiKey notExist)
           (λ tr out, statuses (sys_op <$> tr) = [204] →
                      ∃ pr found ks,
                        is_Some (Strconv.Atoi pr)
                        ∧ (∀ e, found = Some e → notExist e = false)
                        ∧ tr = deleted_run apiKey pr found ks)).
  unfold deletePullRequest, apiKeyMiddleware, handleDeletePullRequest.
  every_path.
  all: try discriminate.
  all: match goal with H : String.eqb _ _ = true |- _ => apply String.eqb_eq in H as -> end.
  all: eexists _, _, (_, _, _, _, _); (split; [eauto|split; [|reflexivity]]).
  all: by intros ? [= <-].
Qed.

(** Ask every call that is left, whatever the handler did with the
    answers before. *)
Ltac ask_all :=
  repeat first
    [ progress cbn
    | match goal with
      | |- context [aenv ?a ?w'] => is_var w'; destruct (aenv a w') as [? ?]
      | |- context [env ?e ?w'] => is_var w'; destruct (env e w') as [? ?]
      end ].

(** X21.  An upload is answered 201 exactly when the collaborators let it
    through: the key the request carries is the router's, the form parses,
    its [pr] value is a number, it has a [binary] file, and the creation of
    the file, the seek, the copy and [docker build] report no error, each
    asked in the world the call before left.  The run is then one fixed
    sequence: the directory is made (whatever [os.Mkdir] reports, so also
    when it exists already), the file is written and closed before the
    build starts, and after the build the kill command of that pull request
    is run, so that a server still running the old image is stopped; what
    the kill and the close report changes nothing. *)
Theorem created_means_uploaded_and_built apiKey m w :
  let r := act_run env aenv (postPullRequest apiKey) m w in
  (statuses (done r) = [201] ↔ upload_goes_through env aenv apiKey w)
  ∧ (statuses (done r) = [201] →
     ∃ pr made closed stopped,
       is_Some (Strconv.Atoi pr)
       ∧ history r = created_run apiKey pr made closed stopped).
Proof.
  intros r. split; [|apply created_history]. subst r.
  unfold upload_goes_through, postPullRequest, apiKeyMiddleware,
    handleCreatePullRequest, uploadBinary, done.
  cbn. destruct (aenv (HeaderGet "X-API-Key") w) as [w1 key]. cbn.
  destruct (String.eqb_spec key apiKey) as [->|Hkey]; cbn.
  2:{ ask_all. split; [discriminate|]. intros (? & _). done. }
  destruct (aenv (ParseMultipartForm _) w1) as [w2 [e|]]; cbn.
  { ask_all. split; [discriminate|]. intros (_ & ? & _). done. }
  destruct (aenv (FormValue "pr") w2) as [w3 pr]. cbn.
  destruct (Strconv.Atoi pr) as [n|] eqn:Hn; cbn.
  2:{ ask_all. split; [discriminate|]. intros (_ & _ & [? ?] & _). done. }
  destruct (aenv (FormFile "binary") w3) as [w4 [e|]]; cbn.
  { ask_all. split; [discriminate|]. intros (_ & _ & _ & ? & _). done. }
  destruct (aenv (Mkdir _ _) w4) as [w5 made]. cbn.
  destruct (aenv (Create _) w5) as [w6 [e|]]; cbn.
  { ask_all. split; [discriminate|]. intros (_ & _ & _ & _ & ? & _). done. }
  destruct (aenv (Seek 0 0) w6) as [w7 [e|]]; cbn.
  { ask_all. split; [discriminate|]. intros (_ & _ & _ & _ & _ & ? & _). done. }
  destruct (aenv Copy w7) as [w8 [e|]]; cbn.
  { ask_all. split; [discriminate|]. intros (_ & _ & _ & _ & _ & _ & ? & _). done. }
  destruct (aenv CloseFile w8) as [w9 closed]. cbn.
  destruct (env (Exec (Docker.build_args pr)) w9) as [w10 [e|]]; cbn.
  { ask_all. split; [discriminate|]. intros (_ & _ & _ & _ & _ & _ & _ & ?). done. }
  ask_all. split; [|done]. intros _. repeat split; eauto.
Qed.

(** X22.  A delete is answered 204 exactly when the collaborators let it
    through: the key the request carries is the router's, the path value is
    a number and [os.Stat] does not report that the directory does not
    exist; a [Stat] that fails for another reason lets the delete go on.
    The run is then one fixed sequence (the kill, the wait and the image
    removal, then the directory and the binary) and it is carried out to
    the end and answered 204 whatever any of the five steps reports. *)
Theorem deleted_whatever_fails apiKey notExist m w :
  let r := act_run env aenv (deletePullRequest apiKey notExist) m w in
  (statuses (done r) = [204] ↔ delete_goes_through env aenv apiKey notExist w)
  ∧ (statuses (done r) = [204] →
     ∃ pr found ks,
       is_Some (Strconv.Atoi pr)
       ∧ (∀ e, found = Some e → notExist e = false)
       ∧ history r = deleted_run apiKey pr found ks).
Proof.
  intros r. split; [|apply deleted_history]. subst r.
  unfold delete_goes_through, deletePullRequest, apiKeyMiddleware,
    handleDeletePullRequest, done.
  cbn. destruct (aenv (HeaderGet "X-API-Key") w) as [w1 key]. cbn.
  destruct (String.eqb_spec key apiKey) as [->|Hkey]; cbn.
  2:{ ask_all. split; [discriminate|]. intros (? & _). done. }
  destruct (aenv (PathValue "pr") w1) as [w2 pr]. cbn.
  destruct (Strconv.Atoi pr) as [n|] eqn:Hn; cbn.
  2:{ ask_all. split; [discriminate|]. intros (_ & [? ?] & _). done. }
  destruct (env (Stat ("pr-" +:+ pr)) w2) as [w3 [e|]]; cbn.
  - destruct (notExist e) eqn:He; cbn.
    + ask_all. split; [discriminate|]. intros (_ & _ & Hf).
      specialize (Hf e eq_refl). congruence.
    + ask_all. split; [|done]. intros _. split; [done|]. split; [eauto|].
      by intros ? [= <-].
  - ask_all. split; [|done]. intros _. split; [done|]. split; [eauto|]. done.
Qed.

End Requests.

(** ** Upload, connect, delete *)

Section RoundTrips.

Context {W : Type} (env : ∀ e : ExtOp, W → W * ExtAns e).
Context (aenv : ∀ a : AdminOp, W → W * AdminAns a).

Import Address Listener Router.

(** X23.  On a disk where [os.Mkdir] leaves the directory in place, a pull
    request uploaded with a 201 is found by the listener: a client that
    then asks for [<pr>.df-mc.dev] and whose handshake succeeds passes the
    look-up of ["pr-" ++ pr], the very directory the upload made, and the
    handler goes on to ask the daemon for the server's port. *)
Theorem uploaded_pull_request_is_found apiKey c pr m w Here :
  MakesDirectory env aenv ("pr-" +:+ pr) Here →
  pr_pattern (before_colon (ServerAddress c)) pr →
  let up := act_run env aenv (postPullRequest apiKey) m w in
  statuses (done up) = [201] →
  omap named (history up) = [pr] →
  (env (StartGame c) (end_world up)).2 = None →
  let h := run env (handleConnection c) (end_map up) (end_world up) in
  take 2 (trace h)
  = [existT (Ext (StartGame c)) None; existT (Ext (Stat ("pr-" +:+ pr))) None]
  ∧ calls h !! 2%nat = Some (Ext (ContainerList ("pr=" +:+ pr))).
Proof.
  intros HM Hpat up H201 Hnamed Hgame h.
  destruct (created_history env aenv apiKey m w H201)
    as (pr' & made & closed & stopped & _ & Hh).
  fold up in Hh. rewrite Hh in Hnamed. injection Hnamed as ->.
  assert (Hhere : Here (end_world up)).
  { unfold up. rewrite act_run_world. fold up. unfold done. rewrite Hh.
    unfold world_after, created_run. cbn [fmap list_fmap sys_op projT1 foldl].
    repeat first [ apply (mkdir_here _ _ _ _ HM)
                 | apply (here_ext _ _ _ _ HM)
                 | apply (here_adm _ _ _ _ HM); [discriminate|] ]. }
  subst h. generalize dependent (end_world up). generalize (end_map up).
  intros m' w' Hgame Hhere.
  unfold handleConnection.
  destruct (pattern_not_fixed _ _ Hpat) as [-> ->].
  rewrite (FindStringSubmatch_pattern _ _ Hpat).
  pose proof (here_ext _ _ _ _ HM (StartGame c) w' Hhere) as Hhere1.
  simpl. destruct (env (StartGame c) w') as [w1 a1]; simpl in *. subst a1. simpl.
  pose proof (here_stat _ _ _ _ HM w1 Hhere1) as Hstat.
  destruct (env (Stat ("pr-" +:+ pr)) w1) as [w2 a2]; simpl in *. subst a2. simpl.
  unfold calls.
  destruct (env (ContainerList ("pr=" +:+ pr)) w2) as [w3 [cs [e|]]]; simpl; [done|].
  destruct cs as [|c0 cs]; simpl.
  - destruct (env (Exec (Docker.run_args pr)) w2); done.
  - destruct (Ports c0); simpl; done.
Qed.

(** X24.  On a disk where [os.RemoveAll] removes the directory, a pull
    request deleted with a 204 can no longer be joined: a client that then
    asks for [<pr>.df-mc.dev] is disconnected, as asking for an invalid or
    outdated pull request when its handshake succeeds, and the handler
    makes no call on the Docker daemon, so the deleted server is not
    started again. *)
Theorem deleted_pull_request_is_rejected apiKey notExist c pr m w Gone :
  RemovesDirectory env aenv ("pr-" +:+ pr) Gone →
  pr_pattern (before_colon (ServerAddress c)) pr →
  let del := act_run env aenv (deletePullRequest apiKey notExist) m w in
  statuses (done del) = [204] →
  omap named (history del) = [pr] →
  let h := run env (handleConnection c) (end_map del) (end_world del) in
  calls h
  = if (env (StartGame c) (end_world del)).2 is Some _
    then [Ext (StartGame c); Ext (Disconnect c "<red>Failed to start game</red>")]
    else [Ext (StartGame c); Ext (Stat ("pr-" +:+ pr));
          Ext (Disconnect c "<red>Invalid or outdated pull request</red>")].
Proof.
  intros HR Hpat del H204 Hnamed h.
  destruct (deleted_history env aenv apiKey notExist m w H204)
    as (pr' & found & [[[[k1 k2] k3] r1] r2] & _ & _ & Hh).
  fold del in Hh. rewrite Hh in Hnamed. injection Hnamed as ->.
  assert (Hgone : Gone (end_world del)).
  { unfold del. rewrite act_run_world. fold del. unfold done. rewrite Hh.
    unfold world_after, deleted_run. cbn [fmap list_fmap sys_op projT1 foldl].
    repeat first [ apply (remove_gone _ _ _ _ HR)
                 | apply (gone_adm _ _ _ _ HR); [discriminate|] ]. }
  subst h. generalize dependent (end_world del). generalize (end_map del).
  intros m' w' Hgone.
  unfold handleConnection, calls.
  destruct (pattern_not_fixed _ _ Hpat) as [-> ->].
  rewrite (FindStringSubmatch_pattern _ _ Hpat).
  pose proof (gone_ext _ _ _ _ HR (StartGame c) w' Hgone) as Hgone1.
  simpl. destruct (env (StartGame c) w') as [w1 [e|]]; simpl in *.
  - by destruct (env (Disconnect c _) w1) as [w2 []].
  - destruct (gone_stat _ _ _ _ HR w1 Hgone1) as [e He].
    destruct (env (Stat ("pr-" +:+ pr)) w1) as [w2 a2]; simpl in *. subst a2. simpl.
    by destruct (env (Disconnect c _) w2) as [w3 []].
Qed.

End RoundTrips.

(** ** The names of the router and those of the listener *)

Section Names.

Context {W : Type} (env : ∀ e : ExtOp, W → W * ExtAns e).

Import Address Listener.

Lemma handler_digits_only c m w :
  Forall digits_only (calls (run env (handleConnection c) m w)).
Proof.
  unfold calls.
  apply (allruns_run env (handleConnection c)
           (λ tr out, Forall digits_only (op_of <$> tr))).
  unfold handleConnection.
  set (addr := before_colon (ServerAddress c)).
  destruct (String.eqb addr "df-mc.dev" || String.eqb addr "188.166.78.44");
    [all_paths; repeat constructor|].
  destruct (String.eqb addr "plots.df-mc.dev"); [all_paths; repeat constructor|].
  destruct (FindStringSubmatch_inv addr) as [->|(ds & -> & _ & _ & Hd)];
    [all_paths; repeat constructor|].
  all_paths.
  all: repeat first [ apply Forall_nil | apply Forall_cons; split ].
  all: try exact I; try exact Hd.
  all: by exists ds.
Qed.

(** X25.  The router takes more for a pull-request number than the
    listener does.  A name that [strconv.Atoi] accepts but that is not
    digits alone (a number with a sign, such as [+7] or [-7]) can be
    uploaded, yet no connection ever reaches it: whatever address a client
    sends and whatever the collaborators answer, the handler neither looks
    up ["pr-" ++ s] nor starts a server for [s]. *)
Theorem signed_uploads_are_unreachable s v c m w :
  Strconv.Atoi s = Some v →
  all_digits s = false →
  let r := run env (handleConnection c) m w in
  (Ext (Stat ("pr-" +:+ s)) ∉ calls r) ∧ (start_of s ∉ calls r).
Proof.
  intros _ Hs r.
  pose proof (handler_digits_only c m w) as Hall. fold r in Hall.
  rewrite Forall_forall in Hall. split; intros Hin; apply Hall in Hin.
  - destruct Hin as (ds & Heq & Hd). apply (inj _) in Heq. congruence.
  - destruct Hin as (ds & Heq & Hd). injection Heq as Heq _.
    apply (inj _) in Heq. congruence.
Qed.

End Names.

(** ** The reference model of the host keeps its directories *)

Lemma has_cons x y l : Sim.has x (y :: l) = String.eqb x y || Sim.has x l.
Proof. done. Qed.

Lemma has_filter_other x y l :
  x ≠ y →
  Sim.has x (filter (λ d, String.eqb y d = false) l) = Sim.has x l.
Proof.
  intros Hne. induction l as [|d l IH]; [done|].
  destruct (String.eqb_spec y d) as [<-|Hd].
  - rewrite filter_cons_False by (rewrite String.eqb_refl; done).
    rewrite has_cons, IH. by apply String.eqb_neq in Hne as ->.
  - rewrite filter_cons_True by (by apply String.eqb_neq).
    by rewrite !has_cons, IH.
Qed.

Lemma has_filter_same x l :
  Sim.has x (filter (λ d, String.eqb x d = false) l) = false.
Proof.
  induction l as [|d l IH]; [done|].
  destruct (String.eqb x d) eqn:Hd.
  - by rewrite filter_cons_False by (rewrite Hd; done).
  - rewrite filter_cons_True by done. by rewrite has_cons, Hd, IH.
Qed.

Lemma desk_ext_folders e w : Desk.folders (Desk.env e w).1 = Desk.folders w.
Proof.
  destruct e as [c|c msg|c pk|name|label|args|]; try done.
  unfold Desk.env, Desk.exec. destruct (Desk.built args).
  - by destruct (Sim.daemon_up (Desk.host w)).
  - by destruct (Sim.exec args (Desk.host w)).
Qed.

Lemma desk_makes_directory name :
  MakesDirectory Desk.env Desk.aenv name (λ w, Sim.has name (Desk.folders w) = true).
Proof.
  split.
  - intros perm w. simpl. destruct (Sim.has name (Desk.folders w)) eqn:Hh; [done|].
    simpl. by rewrite has_cons, String.eqb_refl.
  - intros a w Ha Hhere. destruct a; try done; simpl.
    + by destruct (Sim.has id _).
    + destruct (Sim.has name0 (Desk.folders w)); [done|]. simpl.
      rewrite has_cons, Hhere. apply orb_true_r.
    + rewrite has_filter_other; [done|]. congruence.
  - intros e w Hhere. by rewrite desk_ext_folders.
  - intros w Hhere. simpl. by rewrite Hhere.
Defined.

Lemma desk_removes_directory name :
  RemovesDirectory Desk.env Desk.aenv name
    (λ w, Sim.has name (Desk.folders w) = false).
Proof.
  split.
  - intros w. simpl. apply has_filter_same.
  - intros a w Ha Hgone. destruct a; try done; simpl.
    + by destruct (Sim.has id _).
    + destruct (Sim.has name0 (Desk.folders w)); [done|]. simpl.
      rewrite has_cons, Hgone.
      destruct (String.eqb_spec name name0) as [<-|]; [by destruct (Ha perm)|done].
    + destruct (decide (name = path)) as [->|Hne]; [apply has_filter_same|].
      by rewrite has_filter_other.
  - intros e w Hgone. by rewrite desk_ext_folders.
  - intros w Hgone. simpl. rewrite Hgone. eauto.
Defined.

(** ** The router, run *)

Section RouterRuns.

Import Address Listener Router Scenario.

(** Of the three containers left on the host, the two of pull requests
    are signalled. *)
Example leftover_containers :
  done (act_run Desk.env Desk.aenv Cleanup.ClearContainers ∅ Desk.leftovers)
  = [Adm ListAll; Adm (ContainerKill "a1" "SIGINT"); Adm (ContainerKill "c3" "SIGINT")].
Proof. reflexivity. Qed.

(** X23 at pull request 7, uploaded to a host with nothing on it and then
    asked for. *)
Lemma uploaded_pull_request_is_found_witness :
  let c := client 5 "7.df-mc.dev" in
  let up := act_run Desk.env Desk.aenv (postPullRequest "secret") ∅ Desk.seven in
  let h := run Desk.env (handleConnection c) (end_map up) (end_world up) in
  MakesDirectory Desk.env Desk.aenv ("pr-" +:+ "7")
    (λ w, Sim.has ("pr-" +:+ "7") (Desk.folders w) = true)
  ∧ pr_pattern (before_colon (ServerAddress c)) "7"
  ∧ statuses (done up) = [201]
  ∧ omap named (history up) = ["7"]
  ∧ (Desk.env (StartGame c) (end_world up)).2 = None
  ∧ take 2 (trace h)
    = [existT (Ext (StartGame c)) None; existT (Ext (Stat ("pr-" +:+ "7"))) None]
  ∧ calls h !! 2%nat = Some (Ext (ContainerList ("pr=" +:+ "7"))).
Proof.
  intros c up h.
  assert (Hpat : pr_pattern (before_colon (ServerAddress c)) "7").
  { split; [reflexivity|split; [discriminate|reflexivity]]. }
  assert (H201 : statuses (done up) = [201]) by reflexivity.
  assert (Hnamed : omap named (history up) = ["7"]) by reflexivity.
  assert (Hgame : (Desk.env (StartGame c) (end_world up)).2 = None) by reflexivity.
  exact (conj (desk_makes_directory _) (conj Hpat (conj H201 (conj Hnamed (conj Hgame
           (uploaded_pull_request_is_found Desk.env Desk.aenv "secret" c "7" ∅
              Desk.seven _ (desk_makes_directory _) Hpat H201 Hnamed Hgame)))))).
Defined.

(** X24 at pull request 7, deleted from a host that has its directory and
    then asked for. *)
Lemma deleted_pull_request_is_rejected_witness :
  let c := client 6 "7.df-mc.dev" in
  let w := Desk.with_folders ["pr-7"] Desk.seven in
  let del := act_run Desk.env Desk.aenv (deletePullRequest "secret" notExist) ∅ w in
  let h := run Desk.env (handleConnection c) (end_map del) (end_world del) in
  RemovesDirectory Desk.env Desk.aenv ("pr-" +:+ "7")
    (λ w, Sim.has ("pr-" +:+ "7") (Desk.folders w) = false)
  ∧ pr_pattern (before_colon (ServerAddress c)) "7"
  ∧ statuses (done del) = [204]
  ∧ omap named (history del) = ["7"]
  ∧ calls h
    = [Ext (StartGame c); Ext (Stat "pr-7");
       Ext (Disconnect c "<red>Invalid or outdated pull request</red>")].
Proof.
  intros c w del h.
  assert (Hpat : pr_pattern (before_colon (ServerAddress c)) "7").
  { split; [reflexivity|split; [discriminate|reflexivity]]. }
  assert (H204 : statuses (done del) = [204]) by reflexivity.
  assert (Hnamed : omap named (history del) = ["7"]) by reflexivity.
  exact (conj (desk_removes_directory _) (conj Hpat (conj H204 (conj Hnamed
           (deleted_pull_request_is_rejected Desk.env Desk.aenv "secret" notExist
              c "7" ∅ w _ (desk_removes_directory _) Hpat H204 Hnamed))))).
Defined.

(** X25 at [+7], which the router takes for a number. *)
Lemma signed_uploads_are_unreachable_witness :
  let c := client 7 "+7.df-mc.dev" in
  let r := run Sim.env (handleConnection c) ∅ idle in
  Strconv.Atoi "+7" = Some 7
  ∧ all_digits "+7" = false
  ∧ (Ext (Stat ("pr-" +:+ "+7")) ∉ calls r)
  ∧ (start_of "+7" ∉ calls r).
Proof.
  intros c r.
  assert (Hatoi : Strconv.Atoi "+7" = Some 7) by reflexivity.
  assert (Hd : all_digits "+7" = false) by reflexivity.
  exact (conj Hatoi (conj Hd
           (signed_uploads_are_unreachable Sim.env "+7" 7 c ∅ idle Hatoi Hd))).
Defined.

End RouterRuns.
